(** * repoll coverage scripts: a shallow embedding and its properties

    The repository holds two reporting scripts over a Go coverage profile:
    [coverage_analysis.py] (function [analyze_coverage]) and
    [simple_coverage_calc.py] (a module-level script).  Both read the lines
    of [coverage_new.out], drop the first one, and count lines whose third
    token is a positive integer.

    Modelling choices.
    - A Python [str] is a [string]: the UTF-8 bytes of the text.  The
      character classes used by [str.strip], [str.split] and [int] are the
      ASCII ones (CPython's table for code points below 128), so the model
      coincides with the interpreter on profiles whose blanks and digits
      are ASCII.  Byte order on UTF-8 agrees with code point order, which
      is what [sorted] uses.
    - A Python [int] is a [Z]; a Python [float] is a binary64 value of
      [SpecFloat] (precision 53, emax 1024), with the operations rounded to
      nearest even as the hardware does.  The interpreter's configurable
      cap on the number of digits [int] accepts is not modelled.
    - The file system is the argument of the entry points: [None] when the
      path does not exist, [Some lines] for the result of [readlines()].
    - [print] appends its argument to the list of printed texts; an
      uncaught exception ends the run and is kept in the outcome. *)

From Stdlib Require Import ZArith SpecFloat Ascii.
From Stdlib Require String.
From stdpp Require Import base option list sorting gmap strings pretty.

Local Open Scope Z_scope.

(** ** Python built-ins used by the scripts *)

Module Py.

(** Exceptions the scripts can raise.  [ValueError] carries the literal
    that [int] rejected. *)
Inductive exn :=
| ValueError (literal : string)
| ZeroDivisionError
| OverflowError
| FileNotFoundError.

Inductive result (A : Type) :=
| Ok (a : A)
| Raise (e : exn).
Arguments Ok {A} a.
Arguments Raise {A} e.

Definition bind {A B} (k : A → result B) (r : result A) : result B :=
  match r with
  | Ok a => k a
  | Raise e => Raise e
  end.

#[global] Instance result_ret : MRet result := λ A, Ok.
#[global] Instance result_bind : MBind result := λ A B, bind.

Definition is_ok {A} (r : result A) : bool :=
  match r with Ok _ => true | Raise _ => false end.

Definition to_option {A} (r : result A) : option A :=
  match r with Ok a => Some a | Raise _ => None end.

(** [str.isspace] on one character: TAB, LF, VT, FF, CR, the four
    separators FS, GS, RS, US, and the space. *)
Definition isspace (c : ascii) : bool :=
  let n := N_of_ascii c in
  ((9 <=? n)%N && (n <=? 13)%N) || ((28 <=? n)%N && (n <=? 32)%N).

(** The blanks that [int] skips around an ASCII literal (C's [isspace]). *)
Definition isspace_c (c : ascii) : bool :=
  let n := N_of_ascii c in
  ((9 <=? n)%N && (n <=? 13)%N) || (n =? 32)%N.

Fixpoint lstrip (blank : ascii → bool) (s : string) : string :=
  match s with
  | EmptyString => EmptyString
  | String c r => if blank c then lstrip blank r else s
  end.

Fixpoint rstrip (blank : ascii → bool) (s : string) : string :=
  match s with
  | EmptyString => EmptyString
  | String c r =>
      match rstrip blank r with
      | EmptyString => if blank c then EmptyString else String c EmptyString
      | r' => String c r'
      end
  end.

(** [s.strip()] *)
Definition strip (s : string) : string := rstrip isspace (lstrip isspace s).

Definition push_token (cur : string) (toks : list string) : list string :=
  match cur with
  | EmptyString => toks
  | _ => cur :: toks
  end.

(** The token that is being read at the head of [s], and the tokens that
    follow it. *)
Fixpoint split_go (s : string) : string * list string :=
  match s with
  | EmptyString => (EmptyString, [])
  | String c r =>
      let '(cur, toks) := split_go r in
      if isspace c then (EmptyString, push_token cur toks)
      else (String c cur, toks)
  end.

(** [s.split()]: the maximal runs of characters that are not blanks. *)
Definition split (s : string) : list string :=
  let '(cur, toks) := split_go s in push_token cur toks.

(** [s.rfind(c)] for a one-character needle: the highest index of [c], or
    -1. *)
Fixpoint rfind (c : ascii) (s : string) : Z :=
  match s with
  | EmptyString => -1
  | String a r =>
      let i := rfind c r in
      if 0 <=? i then i + 1
      else if decide (a = c) then 0 else -1
  end.

(** [s[:i]] *)
Definition slice_to (s : string) (i : Z) : string :=
  let n := Z.of_nat (String.length s) in
  let j := if i <? 0 then Z.max 0 (n + i) else i in
  String.substring 0 (Z.to_nat j) s.

(** [s.find(old)]: the lowest index at which [old] occurs in [s]. *)
Fixpoint find (old s : string) : option nat :=
  if String.prefix old s then Some 0%nat
  else match s with
       | EmptyString => None
       | String _ r => S <$> find old r
       end.

(** [s.replace(old, new)] for a non-empty [old]: scanning from the left,
    each occurrence of [old] is replaced and the scan resumes behind it.
    [skip] counts the characters of the current occurrence still to be
    dropped. *)
Fixpoint replace_go (old new : string) (skip : nat) (s : string) : string :=
  match s with
  | EmptyString => EmptyString
  | String c r =>
      match skip with
      | S k => replace_go old new k r
      | O =>
          if String.prefix old s
          then new +:+ replace_go old new (String.length old - 1) r
          else String c (replace_go old new 0 r)
      end
  end.

Definition replace (old new s : string) : string := replace_go old new 0 s.

Definition digit_val (c : ascii) : option Z :=
  let n := N_of_ascii c in
  if ((48 <=? n)%N && (n <=? 57)%N) then Some (Z.of_N n - 48) else None.

(** The digits of a decimal literal; single underscores may separate
    digits. [after_digit] tells whether the previous character was a
    digit. *)
Fixpoint int_digits (acc : Z) (after_digit : bool) (s : string) : option Z :=
  match s with
  | EmptyString => if after_digit then Some acc else None
  | String c r =>
      match digit_val c with
      | Some d => int_digits (10 * acc + d) true r
      | None =>
          if decide (c = "_"%char) then
            if after_digit then int_digits acc false r else None
          else None
      end
  end.

Definition int_literal (s : string) : option Z :=
  match rstrip isspace_c (lstrip isspace_c s) with
  | String "-" r => Z.opp <$> int_digits 0 false r
  | String "+" r => int_digits 0 false r
  | r => int_digits 0 false r
  end.

(** [int(s)] *)
Definition int (s : string) : result Z :=
  match int_literal s with
  | Some z => Ok z
  | None => Raise (ValueError s)
  end.

(** *** Floats (binary64) *)

Definition prec : Z := 53.
Definition emax : Z := 1024.

(** An integer as an exact, not yet rounded, operand. *)
Definition exact_int (z : Z) : spec_float :=
  match z with
  | Z0 => S754_zero false
  | Zpos p => S754_finite false p 0
  | Zneg p => S754_finite true p 0
  end.

(** [float(z)], for the integer constants of the scripts. *)
Definition float_of_int (z : Z) : spec_float :=
  binary_normalize prec emax z 0 false.

(** [a / b] on two ints: the quotient of the exact integers, rounded
    once. *)
Definition int_truediv (a b : Z) : result spec_float :=
  if b =? 0 then Raise ZeroDivisionError
  else match SFdiv prec emax (exact_int a) (exact_int b) with
       | S754_infinity _ => Raise OverflowError
       | q => Ok q
       end.

Definition float_mul : spec_float → spec_float → spec_float := SFmul prec emax.
Definition float_sub : spec_float → spec_float → spec_float := SFsub prec emax.

(** [x >= y] *)
Definition float_ge (x y : spec_float) : bool := SFleb y x.

(** *** Format specifications *)

Definition round_half_even (num den : Z) : Z :=
  let q := num / den in
  match (2 * (num mod den)) ?= den with
  | Lt => q
  | Gt => q + 1
  | Eq => if Z.even q then q else q + 1
  end.

(** The magnitude [m * 2^e], in hundredths, rounded to the nearest
    integer. *)
Definition hundredths (m : positive) (e : Z) : Z :=
  if 0 <=? e then Zpos m * 2 ^ e * 100
  else round_half_even (Zpos m * 100) (2 ^ (- e)).

Definition two_digits (n : Z) : string :=
  if n <? 10 then "0" +:+ pretty n else pretty n.

Definition fixed2 (negative : bool) (h : Z) : string :=
  (if negative then "-" else "") +:+ pretty (h / 100) +:+ "." +:+ two_digits (h mod 100).

(** [f"{x:.2f}"] *)
Definition format_f2 (x : spec_float) : string :=
  match x with
  | S754_zero s => fixed2 s 0
  | S754_finite s m e => fixed2 s (hundredths m e)
  | S754_infinity s => if s then "-inf" else "inf"
  | S754_nan => "nan"
  end.

(** [f"{z}"] and [f"{z:d}"] *)
Definition format_d (z : Z) : string := pretty z.

Fixpoint spaces (n : nat) : string :=
  match n with
  | O => EmptyString
  | S k => String " " (spaces k)
  end.

(** Right and left alignment in a field of [width] characters; a longer
    text is left as it is. *)
Definition rjust (width : nat) (s : string) : string :=
  spaces (width - String.length s) +:+ s.
Definition ljust (width : nat) (s : string) : string :=
  s +:+ spaces (width - String.length s).

(** The line terminator [readlines()] keeps at the end of a line. *)
Definition newline : string := String (ascii_of_nat 10) "".

(** [c * n] for a one-character string. *)
Fixpoint repeat_char (c : ascii) (n : nat) : string :=
  match n with
  | O => EmptyString
  | S k => String c (repeat_char c k)
  end.

(** *** Programs that print and may raise *)

(** A program yields the texts it printed, in order, and then either a
    value or the exception that ended it. *)
Definition prog (A : Type) : Type := list string * result A.

Definition print (s : string) : prog unit := ([s], Ok tt).
Definition lift {A} (r : result A) : prog A := ([], r).
Definition seq {A B} (k : A → prog B) (p : prog A) : prog B :=
  match p with
  | (out, Ok a) => let '(out', r) := k a in (out ++ out', r)
  | (out, Raise e) => (out, Raise e)
  end.

#[global] Instance prog_ret : MRet prog := λ A a, ([], Ok a).
#[global] Instance prog_bind : MBind prog := λ A B, seq.

Definition stdout {A} (p : prog A) : list string := fst p.
Definition outcome {A} (p : prog A) : result A := snd p.

End Py.

Import Py.

(** ** Code the two scripts have in common *)

(** [covered / total * 100], line 51 and 64 of coverage_analysis.py and
    line 22 of simple_coverage_calc.py. *)
Definition percent_of (covered total : Z) : result spec_float :=
  q ← int_truediv covered total;
  Ok (float_mul q (float_of_int 100)).

(** The literal [97.0]. *)
Definition target : spec_float := Eval vm_compute in float_of_int 97.

Definition pass_message : string := "✅ Coverage target of 97% achieved!".

(** The verdict: lines 70-74 of coverage_analysis.py and lines 27-31 of
    simple_coverage_calc.py, which are the same text up to the name of
    the percentage. *)
Definition verdict (percent : spec_float) : string :=
  if float_ge percent target then pass_message
  else
    let needed := float_sub target percent in
    "❌ Coverage is " +:+ format_f2 percent +:+ "%, need " +:+
    format_f2 needed +:+ "% more to reach 97%".

(** ** coverage_analysis.py *)

Module CoverageAnalysis.

(** The module root that is cut out of file names (line 38). *)
Definition module_prefix : string := "github.com/khicago/repoll/".

(** One value of the [file_stats] dictionary:
    [{'total': .., 'covered': ..}]. *)
Record stats := Stats { total : Z; covered : Z }.

(** The variables the loop updates. *)
Record state := State {
  file_stats : gmap string stats;
  total_statements : Z;
  covered_statements : Z
}.

Definition initial : state := State ∅ 0 0.

(** Lines 20-38: what one line contributes. [None] stands for the three
    [continue] exits; the count is converted before the colon is looked
    for, as in the source. *)
Definition parse_line (line : string) : result (option (string * Z)) :=
  let line := strip line in
  if decide (line = "") then Ok None else
  let parts := split line in
  if (length parts <? 3)%nat then Ok None else
  let file_part := nth 0 parts "" in
  covered ← int (nth 2 parts "");
  let colon_index := rfind ":" file_part in
  if colon_index =? -1 then Ok None else
  let filename := slice_to file_part colon_index in
  let filename := replace module_prefix "" filename in
  Ok (Some (filename, covered)).

(** Lines 40-48, one definition per statement. *)
Definition ensure_entry (filename : string) (st : state) : state :=
  match file_stats st !! filename with
  | Some _ => st
  | None => State (<[filename := Stats 0 0]> (file_stats st))
                  (total_statements st) (covered_statements st)
  end.

Definition incr_file_total (filename : string) (st : state) : state :=
  State (alter (λ s, Stats (total s + 1) (covered s)) filename (file_stats st))
        (total_statements st) (covered_statements st).

Definition incr_total (st : state) : state :=
  State (file_stats st) (total_statements st + 1) (covered_statements st).

Definition incr_file_covered (filename : string) (st : state) : state :=
  State (alter (λ s, Stats (total s) (covered s + 1)) filename (file_stats st))
        (total_statements st) (covered_statements st).

Definition incr_covered (st : state) : state :=
  State (file_stats st) (total_statements st) (covered_statements st + 1).

(** The statements that run for a record, in program order. *)
Definition count_stmts (filename : string) (covered : Z) : list (state → state) :=
  [ensure_entry filename; incr_file_total filename; incr_total] ++
  (if 0 <? covered then [incr_file_covered filename; incr_covered] else []).

Definition run_stmts (stmts : list (state → state)) (st : state) : state :=
  foldl (λ s f, f s) st stmts.

(** The state after each statement of [stmts]. *)
Fixpoint trace_stmts (stmts : list (state → state)) (st : state) : list state :=
  match stmts with
  | [] => []
  | f :: fs => f st :: trace_stmts fs (f st)
  end.

(** One iteration of the loop of line 19. *)
Definition loop_body (st : state) (line : string) : result state :=
  r ← parse_line line;
  match r with
  | None => Ok st
  | Some (filename, covered) => Ok (run_stmts (count_stmts filename covered) st)
  end.

Fixpoint loop (st : state) (lines : list string) : result state :=
  match lines with
  | [] => Ok st
  | line :: rest => st' ← loop_body st line; loop st' rest
  end.

(** Every state the loop goes through, statement by statement, up to its
    end or to the exception that stops it. *)
Definition body_trace (st : state) (line : string) : list state :=
  match parse_line line with
  | Ok (Some (filename, covered)) => trace_stmts (count_stmts filename covered) st
  | _ => []
  end.

Fixpoint loop_trace (st : state) (lines : list string) : list state :=
  match lines with
  | [] => []
  | line :: rest =>
      body_trace st line ++
      match loop_body st line with
      | Ok st' => loop_trace st' rest
      | Raise _ => []
      end
  end.

(** Line 51. The [else] branch is the int 0, which every later use
    converts to a float. *)
Definition overall_percent (st : state) : result spec_float :=
  if 0 <? total_statements st
  then percent_of (covered_statements st) (total_statements st)
  else Ok (float_of_int 0).

(** [sorted(file_stats.keys())] *)
Definition sorted_keys (fs : gmap string stats) : list string :=
  merge_sort String.le (map_to_list fs).*1.

Definition count_pair (covered total : Z) : string :=
  rjust 3 (format_d covered) +:+ "/" +:+ rjust 3 (format_d total).

(** Lines 61-65. *)
Fixpoint per_file (fs : gmap string stats) (names : list string) : prog unit :=
  match names with
  | [] => mret tt
  | filename :: rest =>
      match fs !! filename with
      | None => mret tt (* not reached: [names] are keys of [fs] *)
      | Some s =>
          (if 0 <? total s then
             percent ← lift (percent_of (covered s) (total s));
             print (ljust 30 filename +:+ " " +:+ count_pair (covered s) (total s)
                    +:+ " (" +:+ rjust 6 (format_f2 percent) +:+ "%)")
           else mret tt) ;;
          per_file fs rest
      end
  end.

(** Lines 51-74. *)
Definition report (st : state) : prog unit :=
  percent ← lift (overall_percent st);
  print "=== Coverage Analysis ===" ;;
  print ("Total statements: " +:+ format_d (total_statements st)) ;;
  print ("Covered statements: " +:+ format_d (covered_statements st)) ;;
  print ("Overall coverage: " +:+ format_f2 percent +:+ "%") ;;
  print "" ;;
  print "=== Per-file Coverage ===" ;;
  per_file (file_stats st) (sorted_keys (file_stats st)) ;;
  print (repeat_char "=" 60) ;;
  print (ljust 30 "TOTAL" +:+ " " +:+
         count_pair (covered_statements st) (total_statements st) +:+
         " (" +:+ rjust 6 (format_f2 percent) +:+ "%)") ;;
  print (verdict percent).

(** The entry point. [file] is [None] when [coverage_new.out] does not
    exist. *)
Definition analyze_coverage (file : option (list string)) : prog unit :=
  match file with
  | None => print "Coverage file not found"
  | Some lines =>
      st ← lift (loop initial (drop 1 lines));
      report st
  end.

End CoverageAnalysis.

(** ** simple_coverage_calc.py *)

Module SimpleCoverageCalc.

(** Lines 16-20: one iteration of the counting loop, on the running value
    of [covered_lines]. *)
Definition count_line (covered_lines : Z) (line : string) : result Z :=
  let parts := split (strip line) in
  if (3 <=? length parts)%nat then
    coverage_count ← int (nth 2 parts "");
    Ok (if 0 <? coverage_count then covered_lines + 1 else covered_lines)
  else Ok covered_lines.

Fixpoint count_lines (covered_lines : Z) (lines : list string) : result Z :=
  match lines with
  | [] => Ok covered_lines
  | line :: rest => c ← count_line covered_lines line; count_lines c rest
  end.

(** Line 7. *)
Definition total_lines (lines : list string) : Z := Z.of_nat (length lines) - 1.

(** Line 22. The [else] branch is the int 0, which every later use
    converts to a float. *)
Definition coverage_percent (covered_lines total_lines : Z) : result spec_float :=
  if 0 <? total_lines then percent_of covered_lines total_lines
  else Ok (float_of_int 0).

(** Lines 35-38: the preview; [i] is the index [enumerate] gives. *)
Fixpoint samples (i : Z) (lines : list string) : prog unit :=
  match lines with
  | [] => mret tt
  | line :: rest =>
      let parts := split (strip line) in
      (if (3 <=? length parts)%nat then
         n ← lift (int (nth 2 parts ""));
         print ("Line " +:+ format_d (i + 1) +:+ ": " +:+ nth 0 parts "" +:+ " -> " +:+
                nth 2 parts "" +:+ " (" +:+
                (if 0 <? n then "covered" else "not covered") +:+ ")")
       else mret tt) ;;
      samples (i + 1) rest
  end.

(** The whole script. [file] is [None] when [coverage_new.out] does not
    exist. *)
Definition simple_coverage_calc (file : option (list string)) : prog unit :=
  match file with
  | None => lift (Raise FileNotFoundError)
  | Some lines =>
      print "=== Simple Coverage Calculation ===" ;;
      print ("Total lines in coverage file: " +:+ format_d (Z.of_nat (length lines))) ;;
      print ("Data lines (excluding mode line): " +:+ format_d (total_lines lines)) ;;
      covered_lines ← lift (count_lines 0 (drop 1 lines));
      percent ← lift (coverage_percent covered_lines (total_lines lines));
      print ("Covered lines: " +:+ format_d covered_lines) ;;
      print ("Coverage percentage: " +:+ format_f2 percent +:+ "%") ;;
      print (verdict percent) ;;
      print (newline +:+ "=== Sample coverage lines ===") ;;
      samples 0 (take 5 (drop 1 lines))
  end.

End SimpleCoverageCalc.

(** ** Vocabulary of the properties *)

(** The tokens both scripts see on a line. *)
Definition tokens (line : string) : list string := split (strip line).

(** A line the scripts pass over: blank after trimming, or fewer than three
    tokens. *)
Definition tolerated (line : string) : Prop :=
  strip line = "" ∨ (length (split (strip line)) < 3)%nat.

(** [s[n:]] *)
Fixpoint slice_from (n : nat) (s : string) : string :=
  match n, s with
  | S k, String _ r => slice_from k r
  | _, _ => s
  end.

(** [s[:n]] *)
Fixpoint slice_upto (n : nat) (s : string) : string :=
  match n, s with
  | S k, String c r => String c (slice_upto k r)
  | _, _ => EmptyString
  end.

Definition sum_total (fs : gmap string CoverageAnalysis.stats) : Z :=
  map_fold (λ _ s acc, CoverageAnalysis.total s + acc) 0 fs.

Definition sum_covered (fs : gmap string CoverageAnalysis.stats) : Z :=
  map_fold (λ _ s acc, CoverageAnalysis.covered s + acc) 0 fs.

(** The global counters are the sums of the entries of [file_stats]. *)
Definition sums_agree (st : CoverageAnalysis.state) : Prop :=
  CoverageAnalysis.total_statements st = sum_total (CoverageAnalysis.file_stats st) ∧
  CoverageAnalysis.covered_statements st = sum_covered (CoverageAnalysis.file_stats st).

(** Covered counts never exceed totals, globally and in every entry. *)
Definition covered_le_total (st : CoverageAnalysis.state) : Prop :=
  CoverageAnalysis.covered_statements st ≤ CoverageAnalysis.total_statements st ∧
  map_Forall (λ _ s, CoverageAnalysis.covered s ≤ CoverageAnalysis.total s)
             (CoverageAnalysis.file_stats st).

(** What one record adds to an entry of [file_stats]. *)
Definition bump (covered : Z) (s : CoverageAnalysis.stats) : CoverageAnalysis.stats :=
  CoverageAnalysis.Stats (CoverageAnalysis.total s + 1)
    (CoverageAnalysis.covered s + (if 0 <? covered then 1 else 0)).

(** What the simple script prints before its counting loop. *)
Definition preamble (lines : list string) : list string :=
  ["=== Simple Coverage Calculation ===";
   "Total lines in coverage file: " +:+ format_d (Z.of_nat (length lines));
   "Data lines (excluding mode line): " +:+ format_d (SimpleCoverageCalc.total_lines lines)].

(** Profiles and lines used as concrete inputs below. *)
Definition header : string := "mode: set" +:+ newline.
Definition covered_line : string := "a.go:1.1,2.2 1 1" +:+ newline.
Definition profile_one_record : list string := [header; covered_line].
Definition profile_blank_tail : list string := [header; covered_line; newline].
Definition vendored_identifier : string := "vendor/github.com/khicago/repoll/x.go".
Definition vendored_line : string :=
  "vendor/github.com/khicago/repoll/x.go:1.1,2.2 1 1" +:+ newline.
Definition prefixed_line : string :=
  "github.com/khicago/repoll/pkg/a.go:1.1,2.2 1 1" +:+ newline.
Definition colonless_bad_line : string := "nocolon 1 x" +:+ newline.
Definition colonless_good_line : string := "nocolon 1 5" +:+ newline.
Definition colonless_negative_line : string := "nocolon 1 -1" +:+ newline.
Definition negative_line : string := "a.go:1.1,2.2 1 -1" +:+ newline.
Definition bad_count_line : string := "a.go:1.1,2.2 1 x" +:+ newline.

(** The two entry points, to state what holds of both. *)
Inductive script := PerFile | Simple.

Definition run (s : script) (file : option (list string)) : prog unit :=
  match s with
  | PerFile => CoverageAnalysis.analyze_coverage file
  | Simple => SimpleCoverageCalc.simple_coverage_calc file
  end.

(** The percentage a script computes for a profile. *)
Definition reported_percent (s : script) (lines : list string) : result spec_float :=
  match s with
  | PerFile =>
      st ← CoverageAnalysis.loop CoverageAnalysis.initial (drop 1 lines);
      CoverageAnalysis.overall_percent st
  | Simple =>
      c ← SimpleCoverageCalc.count_lines 0 (drop 1 lines);
      SimpleCoverageCalc.coverage_percent c (SimpleCoverageCalc.total_lines lines)
  end.

(** Where a complete run shows the percentage and the verdict: the fourth
    and the last text of the per-file report, the fifth and the sixth of
    the simple one. *)
Definition percent_line (s : script) (out : list string) : option string :=
  match s with
  | PerFile => out !! 3%nat
  | Simple => out !! 4%nat
  end.

Definition percent_label (s : script) : string :=
  match s with
  | PerFile => "Overall coverage: "
  | Simple => "Coverage percentage: "
  end.

Definition verdict_line (s : script) (out : list string) : option string :=
  match s with
  | PerFile => last out
  | Simple => out !! 5%nat
  end.

(** A profile with [covered] covered and [uncovered] uncovered records. *)
Definition uncovered_line : string := "a.go:3.1,4.2 1 0" +:+ newline.
Definition profile_of (covered uncovered : Z) : list string :=
  header :: replicate (Z.to_nat covered) covered_line ++
            replicate (Z.to_nat uncovered) uncovered_line.

(** *** Vocabulary of the further properties *)

(** [c in s] *)
Fixpoint occurs (c : ascii) (s : string) : bool :=
  match s with
  | EmptyString => false
  | String a r => bool_decide (a = c) || occurs c r
  end.

(** No character of [s] is a blank. *)
Fixpoint no_blank (s : string) : bool :=
  match s with
  | EmptyString => true
  | String a r => negb (isspace a) && no_blank r
  end.

(** A data line that stops both loops: three or more tokens and a token 2
    that is no integer literal. *)
Definition bad_count (line : string) : bool :=
  (3 <=? length (tokens line))%nat &&
  match int_literal (nth 2 (tokens line) "") with
  | None => true
  | Some _ => false
  end.

(** Token 2 of the first such line. *)
Fixpoint first_bad (data : list string) : option string :=
  match data with
  | [] => None
  | line :: rest =>
      if bad_count line then Some (nth 2 (tokens line) "") else first_bad rest
  end.

(** The record a line yields, if any. *)
Definition record_of (line : string) : option (string * Z) :=
  match CoverageAnalysis.parse_line line with
  | Ok r => r
  | Raise _ => None
  end.

Definition records (data : list string) : list (string * Z) := omap record_of data.

Definition named (f : string) (r : string * Z) : bool := bool_decide (r.1 = f).
Definition is_covered (r : string * Z) : bool := 0 <? r.2.

(** How many elements of [l] satisfy [p]. *)
Definition count_of {A} (p : A → bool) (l : list A) : Z :=
  Z.of_nat (length (List.filter p l)).

(** The entry of [f] after the records [rs], starting from the entry
    [old]. *)
Definition tally (f : string) (rs : list (string * Z))
    (old : option CoverageAnalysis.stats) : option CoverageAnalysis.stats :=
  if count_of (named f) rs =? 0 then old
  else
    let s := default (CoverageAnalysis.Stats 0 0) old in
    Some (CoverageAnalysis.Stats
            (CoverageAnalysis.total s + count_of (named f) rs)
            (CoverageAnalysis.covered s +
             count_of (λ r, named f r && is_covered r) rs)).

(** A line with the shape of a record: three or more tokens and a colon in
    token 0. *)
Definition well_formed (line : string) : bool :=
  (3 <=? length (tokens line))%nat &&
  negb (rfind ":" (nth 0 (tokens line) "") =? -1).

(** A data line the simple script counts as covered. *)
Definition counted (line : string) : bool :=
  (3 <=? length (tokens line))%nat &&
  match int_literal (nth 2 (tokens line) "") with
  | Some n => 0 <? n
  | None => false
  end.

(** A record with a positive count. *)
Definition covered_record (line : string) : bool := well_formed line && counted line.

Definition add_stats (a b : CoverageAnalysis.stats) : CoverageAnalysis.stats :=
  CoverageAnalysis.Stats (CoverageAnalysis.total a + CoverageAnalysis.total b)
                         (CoverageAnalysis.covered a + CoverageAnalysis.covered b).

(** The entry-wise sum of two states. *)
Definition merge (a b : CoverageAnalysis.state) : CoverageAnalysis.state :=
  CoverageAnalysis.State
    (union_with (λ x y, Some (add_stats x y))
       (CoverageAnalysis.file_stats a) (CoverageAnalysis.file_stats b))
    (CoverageAnalysis.total_statements a + CoverageAnalysis.total_statements b)
    (CoverageAnalysis.covered_statements a + CoverageAnalysis.covered_statements b).

(** One text of the per-file section (line 65). *)
Definition file_line (name : string) (s : CoverageAnalysis.stats)
    (percent : spec_float) : string :=
  ljust 30 name +:+ " " +:+
  CoverageAnalysis.count_pair (CoverageAnalysis.covered s) (CoverageAnalysis.total s) +:+
  " (" +:+ rjust 6 (format_f2 percent) +:+ "%)".

(** An entry as the loop leaves it. *)
Definition entry_counted (s : CoverageAnalysis.stats) : Prop :=
  0 ≤ CoverageAnalysis.covered s ≤ CoverageAnalysis.total s ∧
  0 < CoverageAnalysis.total s.

(** The state of the loop after [covered_line] alone. *)
Definition one_record_state : CoverageAnalysis.state :=
  CoverageAnalysis.State {[ "a.go" := CoverageAnalysis.Stats 1 1 ]} 1 1.

(** ** Strings *)

Section Replace.
Variables old new : string.

Lemma replace_go_skip (k : nat) (s : string) :
  replace_go old new k s = replace_go old new 0 (slice_from k s).
Proof.
  revert k. induction s as [|c r IH]; intros [|k]; simpl; try reflexivity.
  apply IH.
Qed.

Lemma slice_upto_all (s : string) : slice_upto (String.length s) s = s.
Proof. induction s as [|c r IH]; simpl; [reflexivity | by rewrite IH]. Qed.

Hypothesis old_nonempty : old ≠ "".

Lemma prefix_empty_false : String.prefix old "" = false.
Proof. destruct old; [done | reflexivity]. Qed.

(** [replace] cuts at the first occurrence and goes on behind it. *)
Lemma replace_unfold (s : string) :
  replace old new s =
  match find old s with
  | None => s
  | Some i =>
      slice_upto i s +:+ new +:+
      replace old new (slice_from (i + String.length old) s)
  end.
Proof.
  unfold replace. induction s as [|c r IH].
  - cbn [find replace_go]. rewrite prefix_empty_false. reflexivity.
  - cbn [find replace_go].
    destruct (String.prefix old (String c r)) eqn:Hp.
    + rewrite replace_go_skip. simpl slice_upto.
      destruct old as [|a o]; [done|]. simpl.
      by rewrite Nat.sub_0_r.
    + rewrite IH. destruct (find old r) as [i|]; simpl; reflexivity.
Qed.
End Replace.

(** ** The loops *)

Lemma bind_ok {A B} (k : A → result B) (a : A) : (Ok a ≫= k) = k a.
Proof. reflexivity. Qed.

Lemma bind_raise {A B} (k : A → result B) (e : exn) : (Raise e ≫= k) = Raise e.
Proof. reflexivity. Qed.

(** *** Printing programs *)

Lemma lift_ok_bind {A B} (a : A) (k : A → prog B) : (lift (Ok a) ≫= k) = k a.
Proof. unfold mbind, prog_bind, seq, lift. by destruct (k a). Qed.

Lemma lift_raise_bind {A B} (e : exn) (k : A → prog B) :
  (lift (Raise e) ≫= k) = ([], Raise e).
Proof. reflexivity. Qed.

Lemma print_bind {B} (s : string) (k : unit → prog B) :
  (print s ≫= k) = (s :: (k tt).1, (k tt).2).
Proof. unfold mbind, prog_bind, seq, print. by destruct (k tt). Qed.

Lemma pair_bind {A B} (o : list string) (a : A) (k : A → prog B) :
  (((o, Ok a) : prog A) ≫= k) = (o ++ (k a).1, (k a).2).
Proof. unfold mbind, prog_bind, seq. by destruct (k a). Qed.

Lemma pair_raise_bind {A B} (o : list string) (e : exn) (k : A → prog B) :
  (((o, Raise e) : prog A) ≫= k) = (o, Raise e).
Proof. reflexivity. Qed.

Lemma last_after (pre o : list string) (a b c : string) :
  last (pre ++ o ++ [a; b; c]) = Some c.
Proof.
  rewrite app_assoc. change [a; b; c] with ([a; b] ++ [c]).
  rewrite app_assoc. apply last_snoc.
Qed.

Lemma tokens_blank (line : string) : strip line = "" → tokens line = [].
Proof. unfold tokens. by intros ->. Qed.

Lemma tolerated_tokens (line : string) :
  tolerated line ↔ (length (tokens line) < 3)%nat.
Proof.
  unfold tolerated, tokens. split; [|by right].
  intros [E|H]; [rewrite E; simpl; lia | done].
Qed.

Module AnalysisFacts.
Import CoverageAnalysis.

Lemma parse_line_tolerated (line : string) :
  tolerated line → parse_line line = Ok None.
Proof.
  intros H. unfold parse_line. case_decide; [done|].
  destruct H as [H|H]; [done|].
  apply Nat.ltb_lt in H. by rewrite H.
Qed.

(** [parse_line] on a line with at least three tokens. *)
Lemma parse_line_full (line : string) :
  (3 ≤ length (tokens line))%nat →
  parse_line line =
  (covered ← int (nth 2 (tokens line) "");
   let file_part := nth 0 (tokens line) "" in
   if rfind ":" file_part =? -1 then Ok None
   else Ok (Some (replace module_prefix ""
                    (slice_to file_part (rfind ":" file_part)), covered))).
Proof.
  intros H. unfold parse_line. fold (tokens line).
  case_decide as E.
  - rewrite (tokens_blank _ E) in H. simpl in H. lia.
  - apply Nat.ltb_ge in H. by rewrite H.
Qed.

Lemma loop_body_tolerated (st : state) (line : string) :
  tolerated line → loop_body st line = Ok st.
Proof. intros H. unfold loop_body. by rewrite parse_line_tolerated. Qed.

Lemma loop_app (st : state) (l1 l2 : list string) :
  loop st (l1 ++ l2) = (st' ← loop st l1; loop st' l2).
Proof.
  revert st. induction l1 as [|x l1 IH]; intros st; [reflexivity|].
  simpl. destruct (loop_body st x) as [st'|e]; [|reflexivity].
  rewrite !bind_ok. apply IH.
Qed.

Lemma loop_without (st : state) (pre post : list string) (line : string) :
  tolerated line → loop st (pre ++ line :: post) = loop st (pre ++ post).
Proof.
  intros H. rewrite !loop_app. destruct (loop st pre) as [st'|e]; [|reflexivity].
  rewrite !bind_ok. simpl. by rewrite loop_body_tolerated.
Qed.

(** The only exception the loop body can raise is the [ValueError] of a
    count that is no integer literal. *)
Lemma loop_body_raise (st : state) (line : string) (e : exn) :
  loop_body st line = Raise e →
  ∃ tok, e = ValueError tok ∧ int_literal tok = None.
Proof.
  unfold loop_body, parse_line. case_decide; [done|].
  destruct (length _ <? 3)%nat; [done|].
  unfold int. destruct (int_literal _) eqn:E; simpl.
  - destruct (_ =? -1); done.
  - intros [= <-]. eauto.
Qed.

Lemma loop_body_bad_count (st : state) (line : string) :
  (3 ≤ length (tokens line))%nat →
  int_literal (nth 2 (tokens line) "") = None →
  loop_body st line = Raise (ValueError (nth 2 (tokens line) "")).
Proof.
  intros H3 Hn. unfold loop_body. rewrite parse_line_full by done.
  unfold int. by rewrite Hn.
Qed.

Lemma loop_bad_count (st : state) (data : list string) (line : string) :
  line ∈ data →
  (3 ≤ length (tokens line))%nat →
  int_literal (nth 2 (tokens line) "") = None →
  ∃ tok, loop st data = Raise (ValueError tok) ∧ int_literal tok = None.
Proof.
  intros Hin H3 Hn. revert st.
  induction data as [|x data IH]; intros st; [by apply elem_of_nil in Hin|].
  simpl. apply elem_of_cons in Hin as [<-|Hin].
  - rewrite loop_body_bad_count by done. eauto.
  - destruct (loop_body st x) as [st'|e] eqn:E.
    + rewrite bind_ok. by apply IH.
    + apply loop_body_raise in E as (tok & -> & ?). eauto.
Qed.

(** The statements of lines 40-48 taken together. *)
Lemma run_count_stmts (filename : string) (c : Z) (st : state) :
  run_stmts (count_stmts filename c) st =
  State (<[filename := bump c (default (Stats 0 0) (file_stats st !! filename))]>
           (file_stats st))
        (total_statements st + 1)
        (covered_statements st + (if 0 <? c then 1 else 0)).
Proof.
  destruct st as [fs t cv].
  unfold count_stmts, run_stmts, bump, ensure_entry.
  destruct (0 <? c); simpl; destruct (fs !! filename) as [[t0 c0]|] eqn:E; simpl;
    unfold incr_file_covered, incr_covered, incr_file_total, incr_total; simpl;
    f_equal; try lia; apply map_eq; intros k;
    destruct (decide (filename = k)) as [<-|Hne];
    repeat (rewrite ?lookup_alter_eq, ?lookup_alter_ne, ?lookup_insert_eq,
              ?lookup_insert_ne, ?E by done; simpl);
    try done; repeat f_equal; lia.
Qed.

Lemma loop_body_record (st : state) (line : string) (n : Z) :
  (3 ≤ length (tokens line))%nat →
  int_literal (nth 2 (tokens line) "") = Some n →
  rfind ":" (nth 0 (tokens line) "") ≠ -1 →
  loop_body st line =
  Ok (run_stmts
        (count_stmts
           (replace module_prefix ""
              (slice_to (nth 0 (tokens line) "") (rfind ":" (nth 0 (tokens line) ""))))
           n) st).
Proof.
  intros H3 Hn Hc. unfold loop_body. rewrite parse_line_full by done.
  unfold int. rewrite Hn, bind_ok. simpl.
  apply Z.eqb_neq in Hc. by rewrite Hc.
Qed.

Lemma loop_body_colonless (st : state) (line : string) (n : Z) :
  (3 ≤ length (tokens line))%nat →
  int_literal (nth 2 (tokens line) "") = Some n →
  rfind ":" (nth 0 (tokens line) "") = -1 →
  loop_body st line = Ok st.
Proof.
  intros H3 Hn Hc. unfold loop_body. rewrite parse_line_full by done.
  unfold int. rewrite Hn, bind_ok. simpl. by rewrite Hc.
Qed.

(** *** Order of the records *)

Lemma count_stmts_comm (f1 f2 : string) (c1 c2 : Z) (st : state) :
  run_stmts (count_stmts f1 c1) (run_stmts (count_stmts f2 c2) st) =
  run_stmts (count_stmts f2 c2) (run_stmts (count_stmts f1 c1) st).
Proof.
  rewrite !run_count_stmts. simpl. f_equal; [|lia..].
  destruct (decide (f1 = f2)) as [<-|Hne].
  - rewrite !lookup_insert_eq, !insert_insert_eq. simpl.
    f_equal. unfold bump. simpl. f_equal; lia.
  - rewrite !lookup_insert_ne by done.
    by apply insert_insert_ne.
Qed.

Lemma to_option_bind {A B} (r1 r2 : result A) (k : A → result B) :
  to_option r1 = to_option r2 → to_option (r1 ≫= k) = to_option (r2 ≫= k).
Proof. destruct r1, r2; simpl; intros [=]; by subst. Qed.

Lemma loop_body_swap (st : state) (x y : string) :
  to_option (loop_body st x ≫= λ s, loop_body s y) =
  to_option (loop_body st y ≫= λ s, loop_body s x).
Proof.
  unfold loop_body.
  destruct (parse_line x) as [[[f1 c1]|]|e1], (parse_line y) as [[[f2 c2]|]|e2];
    rewrite ?bind_ok, ?bind_raise; try reflexivity.
  cbn [to_option]. by rewrite count_stmts_comm.
Qed.

Lemma loop_swap (st : state) (x y : string) (rest : list string) :
  to_option (loop st (x :: y :: rest)) = to_option (loop st (y :: x :: rest)).
Proof.
  pose proof (to_option_bind _ _ (λ s, loop s rest) (loop_body_swap st x y)) as H.
  simpl. destruct (loop_body st x) as [s1|e1], (loop_body st y) as [s2|e2];
    simpl in *; done.
Qed.

Lemma loop_permutation (data data' : list string) :
  data ≡ₚ data' → ∀ st, to_option (loop st data) = to_option (loop st data').
Proof.
  induction 1 as [|x l l' _ IH|x y l|l1 l2 l3 _ IH1 _ IH2]; intros st.
  - reflexivity.
  - simpl. destruct (loop_body st x) as [st'|e]; [apply IH | reflexivity].
  - apply loop_swap.
  - by rewrite IH1.
Qed.

(** *** Sums over the dictionary *)

Lemma sum_total_insert (fs : gmap string stats) (f : string) (v : stats) :
  sum_total (<[f := v]> fs) =
  sum_total fs - total (default (Stats 0 0) (fs !! f)) + total v.
Proof.
  unfold sum_total. destruct (fs !! f) as [v0|] eqn:E; simpl.
  - rewrite <-insert_delete_eq.
    rewrite map_fold_insert_L; [|intros; lia|by rewrite lookup_delete_eq].
    rewrite (map_fold_delete_L _ _ f v0 fs); [lia|intros; lia|done].
  - rewrite map_fold_insert_L; [lia|intros; lia|done].
Qed.

Lemma sum_covered_insert (fs : gmap string stats) (f : string) (v : stats) :
  sum_covered (<[f := v]> fs) =
  sum_covered fs - covered (default (Stats 0 0) (fs !! f)) + covered v.
Proof.
  unfold sum_covered. destruct (fs !! f) as [v0|] eqn:E; simpl.
  - rewrite <-insert_delete_eq.
    rewrite map_fold_insert_L; [|intros; lia|by rewrite lookup_delete_eq].
    rewrite (map_fold_delete_L _ _ f v0 fs); [lia|intros; lia|done].
  - rewrite map_fold_insert_L; [lia|intros; lia|done].
Qed.

Lemma loop_body_sums (st st' : state) (line : string) :
  sums_agree st → loop_body st line = Ok st' → sums_agree st'.
Proof.
  intros [Ht Hc]. unfold loop_body.
  destruct (parse_line line) as [[[f c]|]|e];
    rewrite ?bind_ok, ?bind_raise; [|by intros [= <-]|done].
  rewrite run_count_stmts. intros [= <-]. unfold sums_agree. simpl.
  rewrite sum_total_insert, sum_covered_insert. unfold bump. simpl. lia.
Qed.

Lemma loop_sums (data : list string) (st st' : state) :
  sums_agree st → loop st data = Ok st' → sums_agree st'.
Proof.
  revert st. induction data as [|x data IH]; intros st Hst; simpl.
  - by intros [= <-].
  - destruct (loop_body st x) as [s|e] eqn:E; [|done].
    rewrite bind_ok. apply IH. by eapply loop_body_sums.
Qed.

(** *** Covered counts and totals, statement by statement *)

Ltac entry_bound filename Hf E :=
  let k := fresh "k" in let s := fresh "s" in let Hk := fresh "Hk" in
  intros k s; destruct (decide (filename = k)) as [<-|];
  repeat (rewrite ?lookup_alter_eq, ?lookup_alter_ne, ?lookup_insert_eq,
            ?lookup_insert_ne, ?E by done; simpl);
  intros Hk; simplify_eq; simpl;
  try (apply Hf in Hk; simpl in Hk);
  try (apply Hf in E; simpl in E); lia.

Lemma trace_count_stmts_bound (filename : string) (c : Z) (st : state) :
  covered_le_total st →
  Forall covered_le_total (trace_stmts (count_stmts filename c) st).
Proof.
  destruct st as [fs t cv]. intros [Hg Hf]. simpl in Hg, Hf.
  unfold count_stmts, ensure_entry, covered_le_total.
  destruct (0 <? c); simpl; destruct (fs !! filename) as [s0|] eqn:E; simpl;
    repeat apply Forall_cons_2; try apply Forall_nil_2;
    (split; simpl; [lia | entry_bound filename Hf E]).
Qed.

Lemma run_stmts_in_trace (stmts : list (state → state)) (st : state) :
  run_stmts stmts st ∈ st :: trace_stmts stmts st.
Proof.
  revert st. induction stmts as [|f stmts IH]; intros st; simpl.
  - apply list_elem_of_here.
  - apply list_elem_of_further, IH.
Qed.

Lemma loop_body_in_trace (st st' : state) (line : string) :
  loop_body st line = Ok st' → st' ∈ st :: body_trace st line.
Proof.
  unfold loop_body, body_trace.
  destruct (parse_line line) as [[[f c]|]|e]; rewrite ?bind_ok, ?bind_raise;
    [|intros [= <-]; apply list_elem_of_here|done].
  intros [= <-]. exact (run_stmts_in_trace (count_stmts f c) st).
Qed.

Lemma loop_final_in_trace (data : list string) (st st' : state) :
  loop st data = Ok st' → st' ∈ st :: loop_trace st data.
Proof.
  revert st. induction data as [|x data IH]; intros st; simpl.
  - intros [= <-]. apply list_elem_of_here.
  - destruct (loop_body st x) as [s|e] eqn:E; [|done].
    rewrite bind_ok. intros H%IH.
    apply loop_body_in_trace in E.
    rewrite app_comm_cons. apply elem_of_app.
    apply elem_of_cons in H as [->|H]; [by left | by right].
Qed.

Lemma body_trace_bound (st : state) (line : string) :
  covered_le_total st → Forall covered_le_total (body_trace st line).
Proof.
  intros H. unfold body_trace.
  destruct (parse_line line) as [[[f c]|]|e]; try apply Forall_nil_2.
  by apply trace_count_stmts_bound.
Qed.

Lemma loop_trace_bound (data : list string) (st : state) :
  covered_le_total st → Forall covered_le_total (loop_trace st data).
Proof.
  revert st. induction data as [|x data IH]; intros st Hst; simpl.
  - apply Forall_nil_2.
  - apply Forall_app. split; [by apply body_trace_bound|].
    destruct (loop_body st x) as [s|e] eqn:E; [|apply Forall_nil_2].
    apply IH. apply loop_body_in_trace in E.
    pose proof (body_trace_bound st x Hst) as Hb.
    apply elem_of_cons in E as [->|E]; [done|].
    by eapply Forall_forall in Hb.
Qed.

Lemma initial_bound : covered_le_total initial.
Proof. split; simpl; [lia | apply map_Forall_empty]. Qed.

Lemma initial_sums : sums_agree initial.
Proof. split; reflexivity. Qed.

End AnalysisFacts.

Module SimpleFacts.
Import SimpleCoverageCalc.

Lemma count_line_tolerated (c : Z) (line : string) :
  tolerated line → count_line c line = Ok c.
Proof.
  intros H%tolerated_tokens. unfold count_line. fold (tokens line).
  apply Nat.leb_gt in H. by rewrite H.
Qed.

Lemma count_lines_app (c : Z) (l1 l2 : list string) :
  count_lines c (l1 ++ l2) = (c' ← count_lines c l1; count_lines c' l2).
Proof.
  revert c. induction l1 as [|x l1 IH]; intros c; [reflexivity|].
  simpl. destruct (count_line c x) as [c'|e]; [|reflexivity].
  rewrite !bind_ok. apply IH.
Qed.

Lemma count_lines_without (c : Z) (pre post : list string) (line : string) :
  tolerated line → count_lines c (pre ++ line :: post) = count_lines c (pre ++ post).
Proof.
  intros H. rewrite !count_lines_app. destruct (count_lines c pre) as [c'|e]; [|reflexivity].
  rewrite !bind_ok. simpl. by rewrite count_line_tolerated.
Qed.

Lemma count_line_raise (c : Z) (line : string) (e : exn) :
  count_line c line = Raise e →
  ∃ tok, e = ValueError tok ∧ int_literal tok = None.
Proof.
  unfold count_line. destruct (3 <=? length _)%nat; [|done].
  unfold int. destruct (int_literal _) eqn:E; simpl; [done|].
  intros [= <-]. eauto.
Qed.

Lemma count_line_bad_count (c : Z) (line : string) :
  (3 ≤ length (tokens line))%nat →
  int_literal (nth 2 (tokens line) "") = None →
  count_line c line = Raise (ValueError (nth 2 (tokens line) "")).
Proof.
  intros H3 Hn. unfold count_line. fold (tokens line).
  apply Nat.leb_le in H3. rewrite H3. unfold int. by rewrite Hn.
Qed.

Lemma count_line_count (c : Z) (line : string) (n : Z) :
  (3 ≤ length (tokens line))%nat →
  int_literal (nth 2 (tokens line) "") = Some n →
  count_line c line = Ok (if 0 <? n then c + 1 else c).
Proof.
  intros H3 Hn. unfold count_line. fold (tokens line).
  apply Nat.leb_le in H3. rewrite H3. unfold int. by rewrite Hn.
Qed.

Lemma count_lines_bad_count (c : Z) (data : list string) (line : string) :
  line ∈ data →
  (3 ≤ length (tokens line))%nat →
  int_literal (nth 2 (tokens line) "") = None →
  ∃ tok, count_lines c data = Raise (ValueError tok) ∧ int_literal tok = None.
Proof.
  intros Hin H3 Hn. revert c.
  induction data as [|x data IH]; intros c; [by apply elem_of_nil in Hin|].
  simpl. apply elem_of_cons in Hin as [<-|Hin].
  - rewrite count_line_bad_count by done. eauto.
  - destruct (count_line c x) as [c'|e] eqn:E.
    + rewrite bind_ok. by apply IH.
    + apply count_line_raise in E as (tok & -> & ?). eauto.
Qed.

End SimpleFacts.

(** ** Properties *)

Import CoverageAnalysis.

(** C1, as stated, fails for the simple script: a blank last line is
    tolerated, yet with it the script reports 2 data lines and 50.00%, and
    without it 1 data line and 100.00%. *)
Lemma blank_line_changes_simple_totals :
  tolerated newline ∧
  stdout (SimpleCoverageCalc.simple_coverage_calc (Some profile_blank_tail)) !! 2%nat
    = Some "Data lines (excluding mode line): 2" ∧
  stdout (SimpleCoverageCalc.simple_coverage_calc (Some profile_one_record)) !! 2%nat
    = Some "Data lines (excluding mode line): 1" ∧
  stdout (SimpleCoverageCalc.simple_coverage_calc (Some profile_blank_tail)) !! 4%nat
    = Some "Coverage percentage: 50.00%" ∧
  stdout (SimpleCoverageCalc.simple_coverage_calc (Some profile_one_record)) !! 4%nat
    = Some "Coverage percentage: 100.00%".
Proof. split; [left; reflexivity | vm_compute; tauto]. Qed.

(** C1 (amended): a tolerated line (blank after trimming, or fewer than
    three tokens) yields no record.  The per-file analysis runs exactly as
    if the line were absent: same printed report, same outcome.  In the
    simple script the line leaves the covered count as it would be without
    it, but it is counted among the data lines, whose total is one more
    than without it. *)
Theorem tolerated_line_effect (h : string) (pre post : list string) (line : string) :
  tolerated line →
  parse_line line = Ok None ∧
  analyze_coverage (Some (h :: pre ++ line :: post))
    = analyze_coverage (Some (h :: pre ++ post)) ∧
  SimpleCoverageCalc.count_lines 0 (drop 1 (h :: pre ++ line :: post))
    = SimpleCoverageCalc.count_lines 0 (drop 1 (h :: pre ++ post)) ∧
  SimpleCoverageCalc.total_lines (h :: pre ++ line :: post)
    = SimpleCoverageCalc.total_lines (h :: pre ++ post) + 1.
Proof.
  intros H. split; [by apply AnalysisFacts.parse_line_tolerated|].
  split; [|split].
  - unfold analyze_coverage. rewrite !skipn_cons, !drop_0.
    by rewrite AnalysisFacts.loop_without.
  - rewrite !skipn_cons, !drop_0. by apply SimpleFacts.count_lines_without.
  - unfold SimpleCoverageCalc.total_lines. simpl length.
    rewrite !length_app. simpl length. lia.
Qed.

Lemma tolerated_line_effect_witness :
  tolerated newline ∧
  parse_line newline = Ok None ∧
  analyze_coverage (Some (header :: [covered_line] ++ newline :: []))
    = analyze_coverage (Some (header :: [covered_line] ++ [])) ∧
  SimpleCoverageCalc.count_lines 0 (drop 1 (header :: [covered_line] ++ newline :: []))
    = SimpleCoverageCalc.count_lines 0 (drop 1 (header :: [covered_line] ++ [])) ∧
  SimpleCoverageCalc.total_lines (header :: [covered_line] ++ newline :: [])
    = SimpleCoverageCalc.total_lines (header :: [covered_line] ++ []) + 1.
Proof.
  split; [left; reflexivity|].
  apply (tolerated_line_effect header [covered_line] [] newline).
  left; reflexivity.
Defined.

(** C2, as stated, fails: in [vendor/github.com/khicago/repoll/x.go] the
    literal does not stand at the start, and it is removed all the same. *)
Lemma inner_prefix_is_removed :
  String.prefix module_prefix vendored_identifier = false ∧
  replace module_prefix "" vendored_identifier = "vendor/x.go" ∧
  parse_line vendored_line = Ok (Some ("vendor/x.go", 1)).
Proof. vm_compute. tauto. Qed.

(** C2 (amended): the name of a record is its file identifier (token 0 up
    to its last colon) with every occurrence of the literal removed,
    wherever it stands: an identifier in which the literal does not occur
    is kept as it is; otherwise the text before the first occurrence is
    kept, the occurrence is dropped, and the rest is treated the same
    way. *)
Theorem module_prefix_removed_everywhere (line name : string) (count : Z) :
  parse_line line = Ok (Some (name, count)) →
  let file_part := nth 0 (tokens line) "" in
  let identifier := slice_to file_part (rfind ":" file_part) in
  name = replace module_prefix "" identifier ∧
  name = match find module_prefix identifier with
         | None => identifier
         | Some i =>
             slice_upto i identifier +:+
             replace module_prefix ""
               (slice_from (i + String.length module_prefix) identifier)
         end.
Proof.
  intros H file_part identifier.
  assert (name = replace module_prefix "" identifier) as ->.
  { revert H. unfold parse_line. fold (tokens line). fold file_part.
    case_decide; [done|]. destruct (length _ <? 3)%nat; [done|].
    destruct (int _) as [c|e]; [|done]. rewrite bind_ok. simpl.
    destruct (rfind _ _ =? -1); [done|]. by intros [= <- _]. }
  split; [reflexivity|].
  by rewrite (replace_unfold module_prefix "") at 1.
Qed.

Lemma module_prefix_removed_everywhere_witness :
  let file_part := nth 0 (tokens prefixed_line) "" in
  let identifier := slice_to file_part (rfind ":" file_part) in
  "pkg/a.go" = replace module_prefix "" identifier ∧
  "pkg/a.go" = match find module_prefix identifier with
               | None => identifier
               | Some i =>
                   slice_upto i identifier +:+
                   replace module_prefix ""
                     (slice_from (i + String.length module_prefix) identifier)
               end.
Proof.
  apply (module_prefix_removed_everywhere prefixed_line "pkg/a.go" 1).
  reflexivity.
Defined.

(** C3, as stated, fails: the first token of [nocolon 1 x] has no colon,
    yet the count is converted before the colon is looked for, and the
    run ends with the [ValueError] of [x]. *)
Lemma colonless_bad_count_aborts :
  rfind ":" (nth 0 (tokens colonless_bad_line) "") = -1 ∧
  loop_body initial colonless_bad_line = Raise (ValueError "x") ∧
  analyze_coverage (Some [header; colonless_bad_line]) = ([], Raise (ValueError "x")).
Proof. vm_compute. tauto. Qed.

(** C3 (amended): a line whose first token has no colon is passed over
    without a record and without an error when it has fewer than three
    tokens or its token 2 is an integer literal; when token 2 is present
    and is no integer literal, the iteration raises the [ValueError] of
    that token. *)
Theorem colonless_line_effect (st : state) (line : string) :
  rfind ":" (nth 0 (tokens line) "") = -1 →
  loop_body st line =
  match tokens line !! 2%nat with
  | None => Ok st
  | Some tok =>
      match int_literal tok with
      | Some _ => Ok st
      | None => Raise (ValueError tok)
      end
  end.
Proof.
  intros Hc. destruct (tokens line !! 2%nat) as [tok|] eqn:E.
  - assert (3 ≤ length (tokens line))%nat as H3.
    { apply lookup_lt_Some in E. lia. }
    assert (nth 2 (tokens line) "" = tok) as Htok.
    { by apply nth_lookup_Some with (d := "") in E. }
    destruct (int_literal tok) as [n|] eqn:En.
    + apply (AnalysisFacts.loop_body_colonless st line n); [done| |done].
      by rewrite Htok.
    + rewrite <-Htok in *. by apply AnalysisFacts.loop_body_bad_count.
  - apply AnalysisFacts.loop_body_tolerated, tolerated_tokens.
    apply lookup_ge_None in E. lia.
Qed.

Lemma colonless_line_effect_witness :
  rfind ":" (nth 0 (tokens colonless_good_line) "") = -1 ∧
  loop_body initial colonless_good_line =
  match tokens colonless_good_line !! 2%nat with
  | None => Ok initial
  | Some tok =>
      match int_literal tok with
      | Some _ => Ok initial
      | None => Raise (ValueError tok)
      end
  end.
Proof.
  split; [reflexivity|].
  apply (colonless_line_effect initial colonless_good_line). reflexivity.
Defined.

(** C4: when some data line has three or more tokens and a token 2 that
    is no integer literal, both scripts end with a [ValueError].  The
    per-file analysis has printed nothing by then; the simple script has
    printed only its title and the two line counts that precede the
    counting loop, and neither covered count, percentage nor verdict. *)
Theorem bad_count_aborts_run (lines : list string) (line : string) :
  line ∈ drop 1 lines →
  (3 ≤ length (tokens line))%nat →
  int_literal (nth 2 (tokens line) "") = None →
  (∃ tok, int_literal tok = None ∧
          analyze_coverage (Some lines) = ([], Raise (ValueError tok))) ∧
  (∃ tok, int_literal tok = None ∧
          SimpleCoverageCalc.simple_coverage_calc (Some lines)
            = (preamble lines, Raise (ValueError tok))).
Proof.
  intros Hin H3 Hn. split.
  - destruct (AnalysisFacts.loop_bad_count initial _ _ Hin H3 Hn) as (tok & E & ?).
    exists tok. split; [done|]. unfold analyze_coverage. by rewrite E.
  - destruct (SimpleFacts.count_lines_bad_count 0 _ _ Hin H3 Hn) as (tok & E & ?).
    exists tok. split; [done|].
    unfold SimpleCoverageCalc.simple_coverage_calc. by rewrite E.
Qed.

Lemma bad_count_aborts_run_witness :
  (∃ tok, int_literal tok = None ∧
          analyze_coverage (Some [header; bad_count_line]) = ([], Raise (ValueError tok))) ∧
  (∃ tok, int_literal tok = None ∧
          SimpleCoverageCalc.simple_coverage_calc (Some [header; bad_count_line])
            = (preamble [header; bad_count_line], Raise (ValueError tok))).
Proof.
  apply (bad_count_aborts_run [header; bad_count_line] bad_count_line).
  - simpl. apply list_elem_of_here.
  - vm_compute. lia.
  - reflexivity.
Defined.

(** C8: on a profile that holds the header line only, whatever the header
    is, both scripts run to their end without an exception and report 0
    covered out of 0 and 0.00%. *)
Theorem header_only_report (h : string) :
  analyze_coverage (Some [h]) =
    (["=== Coverage Analysis ===";
      "Total statements: 0";
      "Covered statements: 0";
      "Overall coverage: 0.00%";
      "";
      "=== Per-file Coverage ===";
      "============================================================";
      "TOTAL                            0/  0 (  0.00%)";
      "❌ Coverage is 0.00%, need 97.00% more to reach 97%"], Ok tt) ∧
  SimpleCoverageCalc.simple_coverage_calc (Some [h]) =
    (["=== Simple Coverage Calculation ===";
      "Total lines in coverage file: 1";
      "Data lines (excluding mode line): 0";
      "Covered lines: 0";
      "Coverage percentage: 0.00%";
      "❌ Coverage is 0.00%, need 97.00% more to reach 97%";
      newline +:+ "=== Sample coverage lines ==="], Ok tt).
Proof. split; vm_compute; reflexivity. Qed.

(** C10, as stated, fails: [nocolon 1 -1] has three tokens and a negative
    count, and the per-file analysis passes it over: no total grows. *)
Lemma colonless_negative_not_counted :
  (3 ≤ length (tokens colonless_negative_line))%nat ∧
  int_literal (nth 2 (tokens colonless_negative_line) "") = Some (-1) ∧
  loop_body initial colonless_negative_line = Ok initial ∧
  ¬ ∃ st, loop_body initial colonless_negative_line = Ok st ∧
          total_statements st = total_statements initial + 1.
Proof.
  assert (loop_body initial colonless_negative_line = Ok initial) as E
    by (vm_compute; reflexivity).
  split; [vm_compute; lia|]. split; [reflexivity|]. split; [exact E|].
  intros (st & Hst & Ht). rewrite E in Hst. injection Hst as <-.
  simpl in Ht. lia.
Qed.

(** C10 (amended): a line with three or more tokens whose token 2 is a
    negative integer literal raises no error in either script.  The
    simple script leaves its covered count unchanged.  In the per-file
    analysis, when token 0 has a colon, the line adds 1 to the global
    total and to the total of its file (created at 0/0 when new) and
    leaves both covered counts unchanged; when token 0 has no colon the
    line is passed over and nothing changes. *)
Theorem negative_count_effect (st : state) (c : Z) (line : string) (n : Z) :
  (3 ≤ length (tokens line))%nat →
  int_literal (nth 2 (tokens line) "") = Some n →
  n < 0 →
  SimpleCoverageCalc.count_line c line = Ok c ∧
  let file_part := nth 0 (tokens line) "" in
  let name := replace module_prefix "" (slice_to file_part (rfind ":" file_part)) in
  let old := default (Stats 0 0) (file_stats st !! name) in
  if rfind ":" file_part =? -1 then loop_body st line = Ok st
  else
    loop_body st line =
    Ok (State (<[name := Stats (total old + 1) (covered old)]> (file_stats st))
              (total_statements st + 1) (covered_statements st)).
Proof.
  intros H3 Hn Hneg.
  assert ((0 <? n) = false) as Hpos by lia.
  split.
  - rewrite (SimpleFacts.count_line_count c line n) by done. by rewrite Hpos.
  - intros file_part name old.
    destruct (rfind ":" file_part =? -1) eqn:Hc.
    + apply Z.eqb_eq in Hc. by apply (AnalysisFacts.loop_body_colonless st line n).
    + apply Z.eqb_neq in Hc.
      rewrite (AnalysisFacts.loop_body_record st line n) by done.
      rewrite AnalysisFacts.run_count_stmts. fold file_part name old.
      unfold bump. rewrite Hpos, !Z.add_0_r. reflexivity.
Qed.

Lemma negative_count_effect_witness :
  SimpleCoverageCalc.count_line 0 negative_line = Ok 0 ∧
  let file_part := nth 0 (tokens negative_line) "" in
  let name := replace module_prefix "" (slice_to file_part (rfind ":" file_part)) in
  let old := default (Stats 0 0) (file_stats initial !! name) in
  if rfind ":" file_part =? -1 then loop_body initial negative_line = Ok initial
  else
    loop_body initial negative_line =
    Ok (State (<[name := Stats (total old + 1) (covered old)]> (file_stats initial))
              (total_statements initial + 1) (covered_statements initial)).
Proof.
  apply (negative_count_effect initial 0 negative_line (-1)).
  - vm_compute. lia.
  - reflexivity.
  - lia.
Defined.

(** C5: permuting the data lines behind the header changes neither the
    per-file statistics nor the global totals: either both runs stop on
    an exception, or both loops end in the same state (the same mapping
    from file name to total and covered, the same two global counters);
    the printed report is then the same as well. *)
Theorem data_order_irrelevant (h : string) (data data' : list string) :
  data ≡ₚ data' →
  to_option (loop initial (drop 1 (h :: data)))
    = to_option (loop initial (drop 1 (h :: data'))) ∧
  stdout (analyze_coverage (Some (h :: data)))
    = stdout (analyze_coverage (Some (h :: data'))).
Proof.
  intros Hp. unfold analyze_coverage. rewrite !skipn_cons, !drop_0.
  pose proof (AnalysisFacts.loop_permutation _ _ Hp initial) as H.
  split; [exact H|].
  destruct (loop initial data) as [s1|e1], (loop initial data') as [s2|e2];
    simpl in H; simplify_eq; reflexivity.
Qed.

Lemma data_order_irrelevant_witness :
  to_option (loop initial (drop 1 (header :: [covered_line; negative_line])))
    = to_option (loop initial (drop 1 (header :: [negative_line; covered_line]))) ∧
  stdout (analyze_coverage (Some (header :: [covered_line; negative_line])))
    = stdout (analyze_coverage (Some (header :: [negative_line; covered_line]))).
Proof.
  apply (data_order_irrelevant header [covered_line; negative_line]
           [negative_line; covered_line]).
  apply perm_swap.
Defined.

(** C6: when the loop has run over the data lines, the global total is
    the sum of the totals of the entries of [file_stats], and the global
    covered count is the sum of their covered counts. *)
Theorem global_counters_are_sums (lines : list string) (st : state) :
  loop initial (drop 1 lines) = Ok st →
  total_statements st = sum_total (file_stats st) ∧
  covered_statements st = sum_covered (file_stats st).
Proof.
  intros H.
  exact (AnalysisFacts.loop_sums _ _ _ AnalysisFacts.initial_sums H).
Qed.

Lemma global_counters_are_sums_witness :
  total_statements (State {[ "a.go" := Stats 1 1 ]} 1 1)
    = sum_total (file_stats (State {[ "a.go" := Stats 1 1 ]} 1 1)) ∧
  covered_statements (State {[ "a.go" := Stats 1 1 ]} 1 1)
    = sum_covered (file_stats (State {[ "a.go" := Stats 1 1 ]} 1 1)).
Proof.
  apply (global_counters_are_sums profile_one_record).
  vm_compute. reflexivity.
Defined.

(** C7: in every state the loop goes through, after each single
    statement of its body as well as at its end, the global covered count
    is at most the global total, and in every entry of [file_stats] the
    covered count is at most the total. *)
Theorem covered_never_exceeds_total (lines : list string) (st : state) :
  st ∈ initial :: loop_trace initial (drop 1 lines) ∨
  loop initial (drop 1 lines) = Ok st →
  covered_statements st ≤ total_statements st ∧
  ∀ name s, file_stats st !! name = Some s → covered s ≤ total s.
Proof.
  intros H.
  assert (st ∈ initial :: loop_trace initial (drop 1 lines)) as Hin.
  { destruct H as [H|H]; [done | by apply AnalysisFacts.loop_final_in_trace]. }
  pose proof (AnalysisFacts.loop_trace_bound (drop 1 lines) initial
                AnalysisFacts.initial_bound) as Hall.
  apply elem_of_cons in Hin as [->|Hin].
  - apply AnalysisFacts.initial_bound.
  - by eapply Forall_forall in Hall.
Qed.

Lemma covered_never_exceeds_total_witness :
  covered_statements (State {[ "a.go" := Stats 1 1 ]} 1 1)
    ≤ total_statements (State {[ "a.go" := Stats 1 1 ]} 1 1) ∧
  ∀ name s, file_stats (State {[ "a.go" := Stats 1 1 ]} 1 1) !! name = Some s →
            covered s ≤ total s.
Proof.
  apply (covered_never_exceeds_total profile_one_record).
  right. vm_compute. reflexivity.
Defined.

(** C9: in every run that reaches its end, the verdict is the pass
    message exactly when the computed percentage, the binary64 value
    whose two-decimal rendering the report shows, is at least 97.0 (so a
    percentage of exactly 97.0 passes); otherwise it is the failure
    message, which shows the percentage and the float difference
    97.0 - percentage, both with two decimals. *)
Theorem verdict_threshold (s : script) (lines out : list string) :
  run s (Some lines) = (out, Ok tt) →
  ∃ pct,
    reported_percent s lines = Ok pct ∧
    percent_line s out = Some (percent_label s +:+ format_f2 pct +:+ "%") ∧
    verdict_line s out =
      Some (if float_ge pct (float_of_int 97)
            then "✅ Coverage target of 97% achieved!"
            else "❌ Coverage is " +:+ format_f2 pct +:+ "%, need " +:+
                 format_f2 (float_sub (float_of_int 97) pct) +:+
                 "% more to reach 97%") ∧
    (pct = float_of_int 97 →
     verdict_line s out = Some "✅ Coverage target of 97% achieved!").
Proof.
  intros H.
  cut (∃ pct,
    reported_percent s lines = Ok pct ∧
    percent_line s out = Some (percent_label s +:+ format_f2 pct +:+ "%") ∧
    verdict_line s out =
      Some (if float_ge pct (float_of_int 97)
            then "✅ Coverage target of 97% achieved!"
            else "❌ Coverage is " +:+ format_f2 pct +:+ "%, need " +:+
                 format_f2 (float_sub (float_of_int 97) pct) +:+
                 "% more to reach 97%")).
  { intros (pct & Hp & Hl & Hv). exists pct. repeat split; try done.
    intros ->. exact Hv. }
  revert H. destruct s.
  - unfold run, analyze_coverage, reported_percent.
    destruct (loop initial (drop 1 lines)) as [st|e];
      [rewrite lift_ok_bind | by rewrite lift_raise_bind].
    rewrite bind_ok. unfold report.
    destruct (overall_percent st) as [pct|e];
      [rewrite lift_ok_bind | by rewrite lift_raise_bind].
    cbn beta. rewrite !print_bind. cbn beta.
    destruct (per_file (file_stats st) (sorted_keys (file_stats st))) as [o [[]|e]];
      [rewrite pair_bind | by rewrite pair_raise_bind].
    rewrite ?print_bind. cbn [fst snd print].
    intros [= <-]. exists pct. split; [reflexivity|]. split; [reflexivity|].
    unfold verdict_line.
    exact (last_after [_; _; _; _; _; _] o _ _ _).
  - unfold run, SimpleCoverageCalc.simple_coverage_calc, reported_percent.
    rewrite !print_bind. cbn beta.
    destruct (SimpleCoverageCalc.count_lines 0 (drop 1 lines)) as [c|e];
      [rewrite lift_ok_bind | by rewrite lift_raise_bind].
    rewrite bind_ok.
    destruct (SimpleCoverageCalc.coverage_percent c _) as [pct|e];
      [rewrite lift_ok_bind | by rewrite lift_raise_bind].
    cbn beta. rewrite !print_bind. cbn [fst snd].
    intros [= <- _]. exists pct. split; [reflexivity|]. split; reflexivity.
Qed.

Lemma verdict_threshold_witness :
  ∃ pct,
    reported_percent PerFile profile_one_record = Ok pct ∧
    percent_line PerFile (stdout (run PerFile (Some profile_one_record)))
      = Some (percent_label PerFile +:+ format_f2 pct +:+ "%") ∧
    verdict_line PerFile (stdout (run PerFile (Some profile_one_record))) =
      Some (if float_ge pct (float_of_int 97)
            then "✅ Coverage target of 97% achieved!"
            else "❌ Coverage is " +:+ format_f2 pct +:+ "%, need " +:+
                 format_f2 (float_sub (float_of_int 97) pct) +:+
                 "% more to reach 97%") ∧
    (pct = float_of_int 97 →
     verdict_line PerFile (stdout (run PerFile (Some profile_one_record)))
       = Some "✅ Coverage target of 97% achieved!").
Proof.
  apply (verdict_threshold PerFile profile_one_record).
  vm_compute. reflexivity.
Defined.

(** The boundary of the verdict: 97 covered records out of 100 give the
    float 97.0 and the pass message in both scripts. *)
Lemma ninety_seven_of_hundred_passes :
  reported_percent PerFile (profile_of 97 3) = Ok (float_of_int 97) ∧
  reported_percent Simple (profile_of 97 3) = Ok (float_of_int 97) ∧
  verdict_line PerFile (stdout (run PerFile (Some (profile_of 97 3))))
    = Some "✅ Coverage target of 97% achieved!" ∧
  verdict_line Simple (stdout (run Simple (Some (profile_of 97 3))))
    = Some "✅ Coverage target of 97% achieved!".
Proof. vm_compute. tauto. Qed.

(** Just below the boundary: 9699 covered records out of 10000 give the
    failure message with a shortfall of 0.01. *)
Lemma just_below_threshold_fails :
  verdict_line PerFile (stdout (run PerFile (Some (profile_of 9699 301))))
    = Some "❌ Coverage is 96.99%, need 0.01% more to reach 97%" ∧
  verdict_line Simple (stdout (run Simple (Some (profile_of 9699 301))))
    = Some "❌ Coverage is 96.99%, need 0.01% more to reach 97%".
Proof. vm_compute. tauto. Qed.

(** Every ratio [97 k / 100 k] with [k] up to 2000 is rounded to the same
    quotient, and its percentage is the float 97.0. *)
Lemma exact_ratio_is_97 :
  forallb (λ k, match percent_of (97 * k) (100 * k) with
                | Ok pct => SFeqb pct (float_of_int 97)
                | Raise _ => false
                end) (seqZ 1 2000) = true.
Proof. vm_compute. reflexivity. Qed.

(** The threshold is tested on the float, not on its two-decimal
    rendering: 96996 covered out of 100000 is shown as 97.00% and fails. *)
Lemma rounded_display_below_threshold :
  verdict <$> to_option (percent_of 96996 100000)
    = Some "❌ Coverage is 97.00%, need 0.00% more to reach 97%".
Proof. vm_compute. reflexivity. Qed.

(** ** Further properties *)

(** *** Tokens and the last colon *)

Lemma rfind_lower (c : ascii) (s : string) : -1 ≤ rfind c s.
Proof.
  induction s as [|a r IH]; simpl; [done|].
  destruct (0 <=? rfind c r) eqn:E; [lia|]. case_decide; lia.
Qed.

Lemma slice_to_cons (a : ascii) (r : string) (i : Z) :
  0 ≤ i → slice_to (String a r) (i + 1) = String a (slice_to r i).
Proof.
  intros Hi. unfold slice_to.
  assert ((i + 1 <? 0) = false) as -> by lia.
  assert ((i <? 0) = false) as -> by lia.
  replace (Z.to_nat (i + 1)) with (S (Z.to_nat i)) by lia. reflexivity.
Qed.

Lemma rfind_splits (c : ascii) (s : string) :
  (rfind c s = -1 ∧ occurs c s = false) ∨
  (0 ≤ rfind c s < Z.of_nat (String.length s) ∧
   ∃ rest, s = slice_to s (rfind c s) +:+ String c rest ∧ occurs c rest = false).
Proof.
  induction s as [|a r IH]; [by left|].
  cbn [rfind occurs String.length].
  destruct IH as [[E Ho]|[Hi (rest & Hr & Ho)]].
  - rewrite E. simpl. case_decide as Hac.
    + subst a. right. split; [lia|]. exists r. split; [|done].
      unfold slice_to. simpl. by destruct r.
    + left. split; [done|]. rewrite bool_decide_eq_false_2 by done. done.
  - right. assert ((0 <=? rfind c r) = true) as -> by lia.
    split; [lia|]. exists rest. split; [|done].
    rewrite slice_to_cons by lia.
    transitivity (String a (slice_to r (rfind c r) +:+ String c rest));
      [by f_equal | reflexivity].
Qed.

Lemma split_go_lstrip (s : string) : split (lstrip isspace s) = split s.
Proof.
  induction s as [|a r IH]; [done|]. cbn [lstrip].
  destruct (isspace a) eqn:E; [|done].
  rewrite IH. unfold split. cbn [split_go]. rewrite E.
  by destruct (split_go r) as [cur toks].
Qed.

Lemma split_go_cons (a : ascii) (r : string) :
  split_go (String a r) =
  let '(cur, toks) := split_go r in
  if isspace a then (EmptyString, push_token cur toks) else (String a cur, toks).
Proof. reflexivity. Qed.

Lemma split_go_rstrip (s : string) : split_go (rstrip isspace s) = split_go s.
Proof.
  induction s as [|a r IH]; [done|]. cbn [rstrip].
  destruct (rstrip isspace r) as [|b r'] eqn:E.
  - rewrite (split_go_cons a r), <-IH.
    destruct (isspace a) eqn:Ea; [done|]. rewrite split_go_cons. by rewrite Ea.
  - by rewrite (split_go_cons a (String b r')), (split_go_cons a r), IH.
Qed.

Lemma split_strip (s : string) : split (strip s) = split s.
Proof.
  unfold strip. rewrite <-(split_go_lstrip s).
  unfold split. by rewrite split_go_rstrip.
Qed.

Lemma push_token_shape (cur : string) (toks : list string) :
  no_blank cur = true →
  Forall (λ t, t ≠ "" ∧ no_blank t = true) toks →
  Forall (λ t, t ≠ "" ∧ no_blank t = true) (push_token cur toks).
Proof. intros Hc Ht. destruct cur; [done|]. by constructor. Qed.

Lemma split_go_shape (s : string) :
  no_blank (split_go s).1 = true ∧
  Forall (λ t, t ≠ "" ∧ no_blank t = true) (split_go s).2.
Proof.
  induction s as [|a r [IH1 IH2]]; [by split|].
  cbn [split_go]. destruct (split_go r) as [cur toks]. cbn [fst snd] in *.
  destruct (isspace a) eqn:E; cbn [fst snd].
  - split; [done|]. by apply push_token_shape.
  - split; [|done]. simpl. by rewrite E.
Qed.

Lemma split_shape (s : string) :
  Forall (λ t, t ≠ "" ∧ no_blank t = true) (split s).
Proof.
  unfold split. pose proof (split_go_shape s) as [H1 H2].
  destruct (split_go s) as [cur toks]. by apply push_token_shape.
Qed.

Lemma split_nil_lstrip (s : string) : split s = [] → lstrip isspace s = "".
Proof.
  induction s as [|a r IH]; [done|]. unfold split in *. cbn [split_go lstrip].
  destruct (split_go r) as [cur toks]. destruct (isspace a) eqn:E.
  - intros H. apply IH. by destruct cur.
  - done.
Qed.

(** X1: trimming a line before splitting it changes nothing: the tokens
    are those of the untrimmed line; every token is non-empty and free of
    blanks; and a line is blank after trimming exactly when it has no
    token, so the test of line 21 is subsumed by the test of line 25. *)
Theorem tokens_shape (line : string) :
  tokens line = split line ∧
  Forall (λ t, t ≠ "" ∧ no_blank t = true) (tokens line) ∧
  (strip line = "" ↔ tokens line = []).
Proof.
  unfold tokens. rewrite split_strip. split; [done|]. split; [apply split_shape|].
  split.
  - intros H. rewrite <-split_strip, H. done.
  - intros H. unfold strip. by rewrite (split_nil_lstrip _ H).
Qed.

Lemma rfind_app (c : ascii) (x rest : string) :
  occurs c rest = false →
  rfind c (x +:+ String c rest) = Z.of_nat (String.length x) ∧
  slice_to (x +:+ String c rest) (Z.of_nat (String.length x)) = x.
Proof.
  intros Ho.
  assert (rfind c rest = -1) as Er.
  { destruct (rfind_splits c rest) as [[E _]|[_ (r' & Hr & _)]]; [done|].
    rewrite Hr in Ho. clear -Ho. exfalso.
    induction (slice_to rest (rfind c rest)) as [|a s IH]; simpl in Ho.
    - by rewrite bool_decide_eq_true_2 in Ho.
    - apply orb_false_elim in Ho as [_ Ho]. auto. }
  induction x as [|a x [IH1 IH2]].
  - simpl. rewrite Er. simpl. rewrite decide_True by done. split; [done|].
    unfold slice_to. simpl. by destruct rest.
  - change (String a x +:+ String c rest) with (String a (x +:+ String c rest)).
    cbn [rfind String.length]. rewrite IH1.
    assert ((0 <=? Z.of_nat (String.length x)) = true) as -> by lia.
    split; [lia|].
    replace (Z.of_nat (S (String.length x))) with (Z.of_nat (String.length x) + 1) by lia.
    rewrite slice_to_cons by lia. by rewrite IH2.
Qed.

(** X2: a line yields the record [(name, n)] exactly when it has three or
    more tokens, its token 2 is the integer literal [n], and its token 0
    is [identifier:range] with no colon in [range] and [name] the
    identifier without the module literal: the cut is at the last colon
    and nothing of token 0 is lost. *)
Theorem record_anatomy (line name : string) (n : Z) :
  parse_line line = Ok (Some (name, n)) ↔
  (3 ≤ length (tokens line))%nat ∧
  int_literal (nth 2 (tokens line) "") = Some n ∧
  ∃ identifier range,
    nth 0 (tokens line) "" = identifier +:+ String ":" range ∧
    occurs ":" range = false ∧
    name = replace module_prefix "" identifier.
Proof.
  split.
  - intros H.
    assert (3 ≤ length (tokens line))%nat as H3.
    { destruct (decide (3 ≤ length (tokens line))%nat) as [|Hn]; [done|].
      rewrite AnalysisFacts.parse_line_tolerated in H; [done|].
      apply tolerated_tokens. lia. }
    rewrite AnalysisFacts.parse_line_full in H by done.
    unfold int in H. destruct (int_literal (nth 2 (tokens line) "")) as [k|]; [|done].
    rewrite bind_ok in H. cbn zeta in H.
    destruct (rfind ":" (nth 0 (tokens line) "") =? -1) eqn:Hc; [done|].
    apply Z.eqb_neq in Hc. injection H as <- <-.
    split; [done|]. split; [done|].
    destruct (rfind_splits ":" (nth 0 (tokens line) "")) as [[E _]|[_ (rest & Hr & Ho)]];
      [done|].
    by exists (slice_to (nth 0 (tokens line) "") (rfind ":" (nth 0 (tokens line) ""))), rest.
  - intros (H3 & Hn & identifier & range & Ht & Ho & ->).
    rewrite AnalysisFacts.parse_line_full by done.
    unfold int. rewrite Hn, bind_ok. cbn zeta. rewrite Ht.
    destruct (rfind_app ":" identifier range Ho) as [-> ->].
    assert ((Z.of_nat (String.length identifier) =? -1) = false) as ->
      by (apply Z.eqb_neq; lia).
    done.
Qed.

(** A quotient [t / t] is the float 1.0, and its percentage the float 100.0. *)
Lemma percent_of_all (t : Z) : 0 < t → percent_of t t = Ok (float_of_int 100).
Proof.
  intros Ht. destruct t as [|t|t]; [lia| |lia].
  unfold percent_of, int_truediv.
  assert ((Z.pos t =? 0) = false) as -> by lia.
  cbn [exact_int SFdiv xorb].
  assert (SFdiv_core_binary prec emax (Z.pos t) 0 (Z.pos t) 0 = (2 ^ 53, -53, loc_Exact)) as ->.
  { unfold SFdiv_core_binary.
    replace (Zdigits2 (Z.pos t) + 0 - (Zdigits2 (Z.pos t) + 0)) with 0 by lia.
    change (Z.min (fexp prec emax 0) (0 - 0)) with (-53).
    change (0 - 0 - -53) with 53. cbn iota.
    rewrite Z.shiftl_mul_pow2 by lia.
    assert (Z.div_eucl (Z.pos t * 2 ^ 53) (Z.pos t) = (2 ^ 53, 0)) as ->.
    { pose proof (Z.div_eucl_eq (Z.pos t * 2 ^ 53) (Z.pos t) ltac:(lia)) as He.
      pose proof (Z.mod_pos_bound (Z.pos t * 2 ^ 53) (Z.pos t) ltac:(lia)) as Hm.
      unfold Z.modulo in Hm.
      destruct (Z.div_eucl (Z.pos t * 2 ^ 53) (Z.pos t)) as [q r].
      assert (q = 2 ^ 53) by nia. f_equal; nia. }
    unfold new_location, new_location_even, new_location_odd.
    by destruct (Z.even (Z.pos t)). }
  reflexivity.
Qed.

(** *** Where the loops stop *)

Lemma loop_body_good (st : state) (line : string) :
  bad_count line = false → is_ok (loop_body st line) = true.
Proof.
  unfold bad_count. intros H.
  destruct (3 <=? length (tokens line))%nat eqn:H3.
  - apply Nat.leb_le in H3. simpl in H.
    destruct (int_literal (nth 2 (tokens line) "")) as [n|] eqn:En; [|done].
    unfold loop_body. rewrite AnalysisFacts.parse_line_full by done.
    unfold int. rewrite En, bind_ok. cbn zeta.
    by destruct (rfind _ _ =? -1).
  - apply Nat.leb_gt in H3.
    rewrite AnalysisFacts.loop_body_tolerated; [done|].
    by apply tolerated_tokens.
Qed.

Lemma count_line_good (c : Z) (line : string) :
  bad_count line = false → is_ok (SimpleCoverageCalc.count_line c line) = true.
Proof.
  unfold bad_count. intros H.
  destruct (3 <=? length (tokens line))%nat eqn:H3.
  - apply Nat.leb_le in H3. simpl in H.
    destruct (int_literal (nth 2 (tokens line) "")) as [n|] eqn:En; [|done].
    by rewrite (SimpleFacts.count_line_count c line n).
  - apply Nat.leb_gt in H3.
    rewrite SimpleFacts.count_line_tolerated; [done|].
    by apply tolerated_tokens.
Qed.

Lemma bad_count_true (line : string) :
  bad_count line = true →
  (3 ≤ length (tokens line))%nat ∧ int_literal (nth 2 (tokens line) "") = None.
Proof.
  unfold bad_count. intros [H3 H]%andb_prop. split; [by apply Nat.leb_le|].
  by destruct (int_literal _).
Qed.

Lemma loops_stop (st : state) (c : Z) (data : list string) :
  match first_bad data with
  | Some tok =>
      loop st data = Raise (ValueError tok) ∧
      SimpleCoverageCalc.count_lines c data = Raise (ValueError tok)
  | None =>
      is_ok (loop st data) = true ∧
      is_ok (SimpleCoverageCalc.count_lines c data) = true
  end.
Proof.
  revert st c. induction data as [|line rest IH]; intros st c; [done|].
  cbn [first_bad loop SimpleCoverageCalc.count_lines].
  destruct (bad_count line) eqn:Hb.
  - apply bad_count_true in Hb as [H3 Hn].
    rewrite AnalysisFacts.loop_body_bad_count, SimpleFacts.count_line_bad_count by done.
    done.
  - pose proof (loop_body_good st line Hb) as H1.
    pose proof (count_line_good c line Hb) as H2.
    destruct (loop_body st line) as [st'|]; [|done].
    destruct (SimpleCoverageCalc.count_line c line) as [c'|]; [|done].
    rewrite !bind_ok. apply IH.
Qed.

(** *** What the loop counts *)

Lemma count_of_cons {A} (p : A → bool) (x : A) (l : list A) :
  count_of p (x :: l) = (if p x then 1 else 0) + count_of p l.
Proof. unfold count_of. simpl. destruct (p x); simpl; lia. Qed.

Lemma count_of_nonneg {A} (p : A → bool) (l : list A) : 0 ≤ count_of p l.
Proof. unfold count_of. lia. Qed.

Lemma count_of_and_zero {A} (p q : A → bool) (l : list A) :
  count_of p l = 0 → count_of (λ x, p x && q x) l = 0.
Proof.
  unfold count_of. induction l as [|x l IH]; simpl; [done|].
  destruct (p x); simpl; [lia | exact IH].
Qed.

Lemma loop_body_record_of (st : state) (line : string) (st' : state) :
  loop_body st line = Ok st' →
  st' = match record_of line with
        | Some (f, c) => run_stmts (count_stmts f c) st
        | None => st
        end.
Proof.
  unfold loop_body, record_of.
  destruct (parse_line line) as [[[f c]|]|e]; rewrite ?bind_ok, ?bind_raise; [| |done];
    by intros [= <-].
Qed.

Lemma records_cons (line : string) (rest : list string) :
  records (line :: rest) =
  match record_of line with
  | Some r => r :: records rest
  | None => records rest
  end.
Proof. reflexivity. Qed.

Lemma loop_tally (data : list string) (st st' : state) :
  loop st data = Ok st' →
  total_statements st' = total_statements st + Z.of_nat (length (records data)) ∧
  covered_statements st' = covered_statements st + count_of is_covered (records data) ∧
  ∀ f, file_stats st' !! f = tally f (records data) (file_stats st !! f).
Proof.
  revert st. induction data as [|line rest IH]; intros st.
  - intros [= <-]. unfold tally, count_of. simpl. split; [lia|]. split; [lia|done].
  - cbn [loop]. destruct (loop_body st line) as [st1|] eqn:E; [|done].
    rewrite bind_ok. intros (Ht & Hc & Hf)%IH.
    apply loop_body_record_of in E.
    rewrite records_cons.
    destruct (record_of line) as [[g k]|]; [|by subst].
    subst st1. rewrite AnalysisFacts.run_count_stmts in Ht, Hc, Hf.
    cbn [total_statements covered_statements file_stats] in Ht, Hc, Hf.
    simpl length. rewrite count_of_cons.
    change (is_covered (g, k)) with (0 <? k).
    split; [lia|]. split; [destruct (0 <? k); lia|].
    intros f. rewrite Hf. unfold tally. rewrite !count_of_cons.
    pose proof (count_of_nonneg (named f) (records rest)).
    destruct (named f (g, k)) eqn:En.
    + apply bool_decide_eq_true in En. simpl in En. subst g.
      rewrite lookup_insert_eq. cbn [andb].
      change (is_covered (f, k)) with (0 <? k).
      destruct (count_of (named f) _ =? 0) eqn:E0.
      * apply Z.eqb_eq in E0.
        rewrite E0, (count_of_and_zero _ is_covered _ E0). simpl. unfold bump. simpl.
        f_equal. f_equal; destruct (0 <? k); simpl; lia.
      * apply Z.eqb_neq in E0.
        destruct (1 + _ =? 0) eqn:E2; [apply Z.eqb_eq in E2; lia|].
        simpl. unfold bump. simpl. f_equal. f_equal; destruct (0 <? k); simpl; lia.
    + apply bool_decide_eq_false in En. simpl in En.
      rewrite lookup_insert_ne by done. done.
Qed.

(** *** The two scripts side by side *)

Lemma bodies_together (st st' : state) (c c' : Z) (line : string) :
  loop_body st line = Ok st' →
  SimpleCoverageCalc.count_line c line = Ok c' →
  0 ≤ covered_statements st' - covered_statements st ≤ c' - c ∧
  c' - c ≤ 1 ∧
  0 ≤ total_statements st' - total_statements st ≤ 1 ∧
  (well_formed line = true →
   total_statements st' = total_statements st + 1 ∧
   covered_statements st' - covered_statements st = c' - c).
Proof.
  unfold well_formed.
  destruct (3 <=? length (tokens line))%nat eqn:H3.
  - apply Nat.leb_le in H3.
    destruct (int_literal (nth 2 (tokens line) "")) as [n|] eqn:En.
    + rewrite (SimpleFacts.count_line_count c line n) by done. intros Hb [= <-].
      destruct (rfind ":" (nth 0 (tokens line) "") =? -1) eqn:Hc.
      * apply Z.eqb_eq in Hc.
        rewrite (AnalysisFacts.loop_body_colonless st line n) in Hb by done.
        injection Hb as <-. simpl.
        destruct (0 <? n); repeat split; try lia; done.
      * apply Z.eqb_neq in Hc.
        rewrite (AnalysisFacts.loop_body_record st line n) in Hb by done.
        rewrite AnalysisFacts.run_count_stmts in Hb. injection Hb as <-. simpl.
        destruct (0 <? n); repeat split; try lia.
    + by rewrite AnalysisFacts.loop_body_bad_count.
  - apply Nat.leb_gt in H3. apply tolerated_tokens in H3.
    rewrite AnalysisFacts.loop_body_tolerated, SimpleFacts.count_line_tolerated by done.
    intros [= <-] [= <-]. repeat split; try lia; done.
Qed.

Lemma loops_together (data : list string) (st st' : state) (c c' : Z) :
  loop st data = Ok st' →
  SimpleCoverageCalc.count_lines c data = Ok c' →
  0 ≤ covered_statements st' - covered_statements st ≤ c' - c ∧
  c' - c ≤ Z.of_nat (length data) ∧
  0 ≤ total_statements st' - total_statements st ≤ Z.of_nat (length data) ∧
  (forallb well_formed data = true →
   total_statements st' = total_statements st + Z.of_nat (length data) ∧
   covered_statements st' - covered_statements st = c' - c).
Proof.
  revert st c. induction data as [|line rest IH]; intros st c.
  - intros [= <-] [= <-]. simpl. lia.
  - cbn [loop SimpleCoverageCalc.count_lines].
    destruct (loop_body st line) as [st1|] eqn:E1; [|done].
    destruct (SimpleCoverageCalc.count_line c line) as [c1|] eqn:E2; [|done].
    rewrite !bind_ok. intros H1 H2.
    destruct (IH _ _ H1 H2) as (Ha & Hb & Hc & Hd).
    destruct (bodies_together _ _ _ _ _ E1 E2) as (Ha' & Hb' & Hc' & Hd').
    cbn [length forallb]. rewrite Nat2Z.inj_succ.
    split; [lia|]. split; [lia|]. split; [lia|].
    intros [Hw Hr]%andb_prop. specialize (Hd Hr). specialize (Hd' Hw). lia.
Qed.

(** *** Concatenation *)

Lemma merge_initial (a : state) : merge a initial = a.
Proof.
  destruct a as [fs t c]. unfold merge, initial. simpl. f_equal; try lia.
  apply map_eq. intros k. rewrite lookup_union_with, lookup_empty.
  by destruct (fs !! k).
Qed.

Lemma count_stmts_merge (f : string) (c : Z) (b a : state) :
  run_stmts (count_stmts f c) (merge b a) = merge b (run_stmts (count_stmts f c) a).
Proof.
  rewrite !AnalysisFacts.run_count_stmts. unfold merge. simpl. f_equal; try lia.
  apply map_eq. intros k. destruct (decide (f = k)) as [<-|Hne].
  - rewrite lookup_insert_eq, !lookup_union_with, lookup_insert_eq.
    destruct (file_stats b !! f) as [[tb cb]|], (file_stats a !! f) as [[ta ca]|];
      simpl; unfold bump, add_stats; simpl; f_equal; f_equal; lia.
  - rewrite lookup_insert_ne, !lookup_union_with, lookup_insert_ne by done. done.
Qed.

Lemma loop_body_merge (b a a' : state) (line : string) :
  loop_body a line = Ok a' → loop_body (merge b a) line = Ok (merge b a').
Proof.
  unfold loop_body.
  destruct (parse_line line) as [[[f c]|]|e]; rewrite ?bind_ok, ?bind_raise; [| |done].
  - intros [= <-]. by rewrite count_stmts_merge.
  - by intros [= <-].
Qed.

Lemma loop_merge (data : list string) (b a a' : state) :
  loop a data = Ok a' → loop (merge b a) data = Ok (merge b a').
Proof.
  revert a. induction data as [|line rest IH]; intros a; cbn [loop].
  - by intros [= <-].
  - destruct (loop_body a line) as [a1|] eqn:E; [|done].
    rewrite bind_ok, (loop_body_merge b a a1 line E), bind_ok. apply IH.
Qed.

(** X9: the statistics of two sequences of data lines put one after the
    other are the sums of the statistics of each: the global counters
    add, and so do the entries of a file present in both. *)
Theorem concatenation_adds_statistics (data1 data2 : list string) (s1 s2 : state) :
  loop initial data1 = Ok s1 →
  loop initial data2 = Ok s2 →
  loop initial (data1 ++ data2) = Ok (merge s1 s2).
Proof.
  intros H1 H2. rewrite AnalysisFacts.loop_app, H1, bind_ok.
  rewrite <-(merge_initial s1) at 1. by apply loop_merge.
Qed.

(** *** The division never overflows *)

Lemma digits2_size (p : positive) : digits2_pos p = Pos.size p.
Proof. induction p as [p IH|p IH|]; simpl; by rewrite ?IH. Qed.

Lemma digits_nonneg (m : Z) : 0 ≤ Zdigits2 m.
Proof. destruct m; simpl; lia. Qed.

Lemma digits_upper (m : Z) : 0 ≤ m → m < 2 ^ Zdigits2 m.
Proof.
  destruct m as [|p|p]; simpl; [lia| |lia]. intros _.
  rewrite digits2_size. pose proof (Pos.size_gt p) as H.
  apply Pos2Z.pos_lt_pos in H. by rewrite Pos2Z.inj_pow in H.
Qed.

Lemma digits_lower (p : positive) : 2 ^ (Zdigits2 (Zpos p) - 1) ≤ Zpos p.
Proof.
  simpl. rewrite digits2_size. pose proof (Pos.size_le p) as H.
  apply Pos2Z.pos_le_pos in H. rewrite Pos2Z.inj_pow in H.
  replace (Z.pos (Pos.size p)) with (Z.succ (Z.pos (Pos.size p) - 1)) in H by lia.
  rewrite Z.pow_succ_r in H by lia. lia.
Qed.

Lemma digits_le_of_lt (m k : Z) : 0 ≤ m → 0 ≤ k → m < 2 ^ k → Zdigits2 m ≤ k.
Proof.
  intros Hm Hk H. destruct m as [|p|p]; [done| |lia].
  pose proof (digits_lower p) as Hl.
  assert (2 ^ (Zdigits2 (Z.pos p) - 1) < 2 ^ k) as Hlt by lia.
  apply Z.pow_lt_mono_r_iff in Hlt; lia.
Qed.

Lemma shr_1_m (mrs : shr_record) : 0 ≤ shr_m mrs → shr_m (shr_1 mrs) = shr_m mrs / 2.
Proof.
  destruct mrs as [m r s]. simpl. intros Hm.
  destruct m as [|[p|p|]|p]; cbn [shr_m]; try reflexivity; try lia.
  - apply Z.div_unique with 1; lia.
  - apply Z.div_unique with 0; lia.
Qed.

Lemma pow2_xI (p : positive) : 2 ^ Z.pos p~1 = 2 * 2 ^ Z.pos p * 2 ^ Z.pos p.
Proof.
  replace (Z.pos p~1) with (1 + Z.pos p + Z.pos p) by lia.
  rewrite !Z.pow_add_r by lia. reflexivity.
Qed.

Lemma pow2_xO (p : positive) : 2 ^ Z.pos p~0 = 2 ^ Z.pos p * 2 ^ Z.pos p.
Proof.
  replace (Z.pos p~0) with (Z.pos p + Z.pos p) by lia.
  rewrite !Z.pow_add_r by lia. reflexivity.
Qed.

Lemma iter_shr_1_m (p : positive) (mrs : shr_record) :
  0 ≤ shr_m mrs →
  shr_m (SpecFloat.iter_pos shr_1 p mrs) = shr_m mrs / 2 ^ Z.pos p.
Proof.
  revert mrs. induction p as [p IH|p IH|]; intros mrs Hm; cbn [SpecFloat.iter_pos];
    try assert (0 < 2 ^ Z.pos p) as Hp by (apply Z.pow_pos_nonneg; lia).
  - assert (0 ≤ shr_m (shr_1 mrs)) as H1 by (rewrite shr_1_m by done; apply Z.div_pos; lia).
    assert (0 ≤ shr_m (SpecFloat.iter_pos shr_1 p (shr_1 mrs))) as H2
      by (rewrite IH by done; apply Z.div_pos; lia).
    rewrite IH, IH, shr_1_m by done.
    rewrite !Z.div_div by lia. rewrite pow2_xI. f_equal. lia.
  - assert (0 ≤ shr_m (SpecFloat.iter_pos shr_1 p mrs)) as H2
      by (rewrite IH by done; apply Z.div_pos; lia).
    rewrite IH, IH by done. rewrite Z.div_div by lia. by rewrite pow2_xO.
  - by rewrite shr_1_m.
Qed.

Lemma fexp_binary64 (x : Z) : fexp prec emax x = Z.max (x - 53) (-1074).
Proof. reflexivity. Qed.

Lemma shr_record_of_loc_m (m : Z) (l : location) : shr_m (shr_record_of_loc m l) = m.
Proof. by destruct l as [|[]]. Qed.

Lemma digits_shifted (q : Z) (p : positive) :
  0 ≤ q →
  Zdigits2 (q / 2 ^ Z.pos p) ≤ Z.max (Zdigits2 q - Z.pos p) 0.
Proof.
  intros Hq. pose proof (digits_upper q Hq) as Hu.
  pose proof (digits_nonneg q) as Hd.
  assert (0 < 2 ^ Z.pos p) as Hp by (apply Z.pow_pos_nonneg; lia).
  destruct (decide (Z.pos p ≤ Zdigits2 q)) as [Hle|Hgt].
  - rewrite Z.max_l by lia. apply digits_le_of_lt; [apply Z.div_pos; lia|lia|].
    apply Z.div_lt_upper_bound; [lia|].
    rewrite <-Z.pow_add_r by lia. by replace (Z.pos p + (Zdigits2 q - Z.pos p)) with (Zdigits2 q) by lia.
  - rewrite Z.div_small; [simpl; lia|]. split; [done|].
    eapply Z.lt_le_trans; [exact Hu|]. apply Z.pow_le_mono_r; lia.
Qed.

Lemma shr_fexp_bound (K q e : Z) (l : location) :
  0 ≤ q → -1074 ≤ K ≤ 1024 → Zdigits2 q + e ≤ K → e ≤ 971 →
  0 ≤ shr_m (shr_fexp prec emax q e l).1 ∧
  (shr_fexp prec emax q e l).2 ≤ 971 ∧
  Zdigits2 (shr_m (shr_fexp prec emax q e l).1) + (shr_fexp prec emax q e l).2 ≤ K.
Proof.
  intros Hq HK Hd He. unfold shr_fexp, shr. rewrite fexp_binary64.
  destruct (Z.max (Zdigits2 q + e - 53) (-1074) - e) as [|p|p] eqn:En; cbn [fst snd];
    rewrite ?shr_record_of_loc_m; try (split; [done|]; split; lia).
  rewrite iter_shr_1_m by (by rewrite shr_record_of_loc_m).
  rewrite shr_record_of_loc_m.
  assert (0 < 2 ^ Z.pos p) as Hp by (apply Z.pow_pos_nonneg; lia).
  pose proof (digits_shifted q p Hq).
  split; [apply Z.div_pos; lia|]. split; lia.
Qed.

Lemma round_nearest_even_bound (m : Z) (l : location) :
  m ≤ round_nearest_even m l ≤ m + 1.
Proof. unfold round_nearest_even. destruct l as [|[]]; try destruct (Z.even m); lia. Qed.

(** Rounding a magnitude below 2^1023 never overflows. *)
Lemma binary_round_aux_finite (s : bool) (q e : Z) (l : location) :
  0 ≤ q → Zdigits2 q + e ≤ 1023 → e ≤ 971 →
  match binary_round_aux prec emax s q e l with
  | S754_infinity _ => False
  | _ => True
  end.
Proof.
  intros Hq Hd He. unfold binary_round_aux.
  pose proof (shr_fexp_bound 1023 q e l Hq ltac:(lia) Hd He) as (H1 & H2 & H3).
  destruct (shr_fexp prec emax q e l) as [mrs1 e1]. cbn [fst snd] in *.
  pose proof (round_nearest_even_bound (shr_m mrs1) (loc_of_shr_record mrs1)) as Hr.
  set (m2 := round_nearest_even (shr_m mrs1) (loc_of_shr_record mrs1)) in *.
  assert (Zdigits2 m2 ≤ Zdigits2 (shr_m mrs1) + 1) as Hd2.
  { pose proof (digits_upper _ H1). pose proof (digits_nonneg (shr_m mrs1)).
    apply digits_le_of_lt; [lia|lia|]. rewrite Z.pow_add_r by lia. lia. }
  pose proof (shr_fexp_bound 1024 m2 e1 loc_Exact ltac:(lia) ltac:(lia) ltac:(lia) H2)
    as (_ & H5 & _).
  destruct (shr_fexp prec emax m2 e1 loc_Exact) as [mrs2 e2]. cbn [fst snd] in *.
  destruct (shr_m mrs2); [done| |done].
  assert ((e2 <=? emax - prec) = true) as -> by (apply Z.leb_le; unfold emax, prec; lia).
  done.
Qed.

Lemma div_core_bound (c t : positive) :
  Z.pos c ≤ Z.pos t →
  0 ≤ (SFdiv_core_binary prec emax (Z.pos c) 0 (Z.pos t) 0).1.1 ∧
  (SFdiv_core_binary prec emax (Z.pos c) 0 (Z.pos t) 0).1.2 ≤ 0 ∧
  Zdigits2 (SFdiv_core_binary prec emax (Z.pos c) 0 (Z.pos t) 0).1.1 +
    (SFdiv_core_binary prec emax (Z.pos c) 0 (Z.pos t) 0).1.2 ≤ 1.
Proof.
  intros Hct. unfold SFdiv_core_binary.
  set (e' := Z.min _ (0 - 0)).
  assert (e' ≤ 0) as He by (subst e'; lia).
  set (m' := match 0 - 0 - e' with Z0 => _ | Z.pos _ => _ | Z.neg _ => _ end).
  assert (m' = Z.pos c * 2 ^ (- e')) as Hm.
  { subst m'. destruct (0 - 0 - e') as [|p|p] eqn:E; [| |lia].
    - replace (- e') with 0 by lia. simpl. lia.
    - rewrite Z.shiftl_mul_pow2 by lia. f_equal. f_equal. lia. }
  assert (0 < 2 ^ (- e')) as Hp by (apply Z.pow_pos_nonneg; lia).
  destruct (Z.div_eucl m' (Z.pos t)) as [q r] eqn:E. cbn [fst snd].
  assert (q = m' / Z.pos t) as -> by (unfold Z.div; by rewrite E).
  assert (0 ≤ m' / Z.pos t) as Hq by (apply Z.div_pos; nia).
  assert (m' / Z.pos t ≤ 2 ^ (- e')) as Hu.
  { apply Z.div_le_upper_bound; [lia|]. nia. }
  split; [done|]. split; [done|].
  assert (Zdigits2 (m' / Z.pos t) ≤ - e' + 1); [|lia].
  apply digits_le_of_lt; [done|lia|]. rewrite Z.pow_add_r by lia. lia.
Qed.

Lemma int_truediv_ok (c t : Z) :
  0 ≤ c ≤ t → 0 < t → is_ok (int_truediv c t) = true.
Proof.
  intros Hc Ht. unfold int_truediv.
  destruct (t =? 0) eqn:E; [apply Z.eqb_eq in E; lia|].
  destruct t as [|t|t]; [lia| |lia]. destruct c as [|c|c]; [done| |lia].
  cbn [exact_int SFdiv xorb].
  pose proof (div_core_bound c t ltac:(lia)) as (H1 & H2 & H3).
  destruct (SFdiv_core_binary prec emax (Z.pos c) 0 (Z.pos t) 0) as [[mz ez] lz].
  cbn [fst snd] in *.
  pose proof (binary_round_aux_finite false mz ez lz H1 ltac:(lia) ltac:(lia)) as H.
  by destruct (binary_round_aux prec emax false mz ez lz).
Qed.

Lemma percent_of_ok (c t : Z) :
  0 ≤ c ≤ t → 0 < t → is_ok (percent_of c t) = true.
Proof.
  intros Hc Ht. unfold percent_of.
  pose proof (int_truediv_ok c t Hc Ht) as H.
  by destruct (int_truediv c t).
Qed.

(** *** The report *)

Lemma sorted_keys_spec (fs : gmap string stats) :
  Sorted String.le (sorted_keys fs) ∧
  NoDup (sorted_keys fs) ∧
  ∀ name, name ∈ sorted_keys fs ↔ is_Some (fs !! name).
Proof.
  unfold sorted_keys. split; [apply (Sorted_merge_sort _)|]. split.
  - rewrite merge_sort_Permutation. apply NoDup_fst_map_to_list.
  - intros name. rewrite merge_sort_Permutation, list_elem_of_fmap. split.
    + intros ([k s] & -> & H%elem_of_map_to_list). by exists s.
    + intros [s H]. exists (name, s). split; [done|]. by apply elem_of_map_to_list.
Qed.

Lemma per_file_lines (fs : gmap string stats) (names : list string) :
  map_Forall (λ _, entry_counted) fs →
  Forall (λ name, is_Some (fs !! name)) names →
  ∃ texts,
    per_file fs names = (texts, Ok tt) ∧
    Forall2 (λ name text, ∃ s pct,
               fs !! name = Some s ∧
               percent_of (covered s) (total s) = Ok pct ∧
               text = file_line name s pct) names texts.
Proof.
  intros Hfs. induction names as [|name rest IH]; intros Hn.
  - exists []. split; [reflexivity | constructor].
  - apply Forall_cons in Hn as [[s Hs] Hrest].
    destruct (IH Hrest) as (texts & E & HF).
    pose proof (Hfs _ _ Hs) as [Hc Ht].
    pose proof (percent_of_ok _ _ Hc Ht) as Hok.
    destruct (percent_of (covered s) (total s)) as [pct|] eqn:Ep; [|done].
    exists (file_line name s pct :: texts). split.
    + cbn [per_file]. rewrite Hs.
      assert ((0 <? total s) = true) as -> by lia.
      rewrite Ep, lift_ok_bind, print_bind. cbn beta.
      rewrite E. reflexivity.
    + constructor; [|done]. by exists s, pct.
Qed.

Lemma count_of_and_le {A} (p q : A → bool) (l : list A) :
  count_of (λ x, p x && q x) l ≤ count_of p l.
Proof.
  unfold count_of. induction l as [|x l IH]; simpl; [done|].
  destruct (p x), (q x); simpl; lia.
Qed.

Lemma count_of_le_length {A} (p : A → bool) (l : list A) :
  count_of p l ≤ Z.of_nat (length l).
Proof.
  unfold count_of. induction l as [|x l IH]; simpl; [done|].
  destruct (p x); simpl; lia.
Qed.

Lemma loop_entries (data : list string) (st : state) :
  loop initial data = Ok st →
  map_Forall (λ _, entry_counted) (file_stats st) ∧
  0 ≤ covered_statements st ≤ total_statements st.
Proof.
  intros (Ht & Hc & Hf)%loop_tally. simpl in Ht, Hc. split.
  - intros f s. rewrite Hf. unfold tally.
    change (file_stats initial) with (∅ : gmap string stats).
    rewrite lookup_empty. simpl.
    pose proof (count_of_nonneg (named f) (records data)).
    pose proof (count_of_nonneg (λ r, named f r && is_covered r) (records data)).
    pose proof (count_of_and_le (named f) is_covered (records data)).
    destruct (count_of (named f) (records data) =? 0) eqn:E; [done|].
    apply Z.eqb_neq in E. intros [= <-]. unfold entry_counted. simpl. lia.
  - pose proof (count_of_nonneg is_covered (records data)).
    pose proof (count_of_le_length is_covered (records data)). lia.
Qed.

Lemma overall_percent_ok (st : state) :
  0 ≤ covered_statements st ≤ total_statements st →
  is_ok (overall_percent st) = true.
Proof.
  intros H. unfold overall_percent.
  destruct (0 <? total_statements st) eqn:E; [|done].
  apply percent_of_ok; lia.
Qed.

Lemma report_layout_aux (lines : list string) :
  first_bad (drop 1 lines) = None →
  ∃ st pct texts,
    loop initial (drop 1 lines) = Ok st ∧
    overall_percent st = Ok pct ∧
    Forall2 (λ name text, ∃ s p,
               file_stats st !! name = Some s ∧
               percent_of (covered s) (total s) = Ok p ∧
               text = file_line name s p)
            (sorted_keys (file_stats st)) texts ∧
    analyze_coverage (Some lines) =
      (["=== Coverage Analysis ===";
        "Total statements: " +:+ format_d (total_statements st);
        "Covered statements: " +:+ format_d (covered_statements st);
        "Overall coverage: " +:+ format_f2 pct +:+ "%";
        "";
        "=== Per-file Coverage ==="] ++
       texts ++
       [repeat_char "=" 60;
        ljust 30 "TOTAL" +:+ " " +:+
        count_pair (covered_statements st) (total_statements st) +:+
        " (" +:+ rjust 6 (format_f2 pct) +:+ "%)";
        verdict pct], Ok tt).
Proof.
  intros Hb.
  pose proof (loops_stop initial 0 (drop 1 lines)) as H.
  rewrite Hb in H. destruct H as [H _].
  destruct (loop initial (drop 1 lines)) as [st|] eqn:E; [|done].
  destruct (loop_entries _ _ E) as [Hfs Hg].
  pose proof (overall_percent_ok st Hg) as Hp.
  destruct (overall_percent st) as [pct|] eqn:Ep; [|done].
  destruct (per_file_lines (file_stats st) (sorted_keys (file_stats st)) Hfs)
    as (texts & Et & HF).
  { apply Forall_forall. intros name. apply sorted_keys_spec. }
  exists st, pct, texts. split; [done|]. split; [done|]. split; [done|].
  unfold analyze_coverage. rewrite E, lift_ok_bind. unfold report.
  rewrite Ep, lift_ok_bind. cbn beta. rewrite !print_bind. cbn beta.
  rewrite Et, pair_bind. rewrite ?print_bind. reflexivity.
Qed.

Lemma first_bad_take (n : nat) (data : list string) :
  first_bad data = None → first_bad (take n data) = None.
Proof.
  revert n. induction data as [|line rest IH]; intros [|n]; simpl; try done.
  destruct (bad_count line); [done|]. apply IH.
Qed.

Lemma samples_ok (ls : list string) (i : Z) :
  first_bad ls = None →
  ∃ texts,
    SimpleCoverageCalc.samples i ls = (texts, Ok tt) ∧
    length texts = length (List.filter (λ l, (3 <=? length (tokens l))%nat) ls).
Proof.
  revert i. induction ls as [|line rest IH]; intros i; simpl first_bad.
  - intros _. by exists [].
  - destruct (bad_count line) eqn:Hb; [done|]. intros Hr.
    destruct (IH (i + 1) Hr) as (texts & E & Hl).
    cbn [SimpleCoverageCalc.samples List.filter]. fold (tokens line).
    unfold bad_count in Hb.
    destruct (3 <=? length (tokens line))%nat eqn:H3.
    + simpl in Hb. unfold int.
      destruct (int_literal (nth 2 (tokens line) "")) as [n|]; [|done].
      rewrite lift_ok_bind, print_bind. cbn beta. rewrite E.
      eexists. split; [reflexivity|]. simpl. by rewrite Hl.
    + exists texts. split; [|done].
      change (mret tt ≫= λ _ : (), SimpleCoverageCalc.samples (i + 1) rest)
        with (lift (Ok tt) ≫= λ _ : (), SimpleCoverageCalc.samples (i + 1) rest).
      by rewrite lift_ok_bind.
Qed.

Lemma count_lines_bound (data : list string) (c c' : Z) :
  first_bad data = None →
  SimpleCoverageCalc.count_lines c data = Ok c' →
  c ≤ c' ≤ c + Z.of_nat (length data).
Proof.
  intros Hb Hc.
  pose proof (loops_stop initial c data) as H.
  rewrite Hb in H. destruct H as [H _].
  destruct (loop initial data) as [st|] eqn:E; [|done].
  destruct (loops_together _ _ _ _ _ E Hc) as (H1 & H2 & _). lia.
Qed.

Lemma simple_layout_aux (lines : list string) :
  first_bad (drop 1 lines) = None →
  ∃ c pct previews,
    SimpleCoverageCalc.count_lines 0 (drop 1 lines) = Ok c ∧
    SimpleCoverageCalc.coverage_percent c (SimpleCoverageCalc.total_lines lines) = Ok pct ∧
    length previews =
      length (List.filter (λ l, (3 <=? length (tokens l))%nat) (take 5 (drop 1 lines))) ∧
    (length previews ≤ 5)%nat ∧
    SimpleCoverageCalc.simple_coverage_calc (Some lines) =
      (preamble lines ++
       ["Covered lines: " +:+ format_d c;
        "Coverage percentage: " +:+ format_f2 pct +:+ "%";
        verdict pct;
        newline +:+ "=== Sample coverage lines ==="] ++
       previews, Ok tt).
Proof.
  intros Hb.
  pose proof (loops_stop initial 0 (drop 1 lines)) as H.
  rewrite Hb in H. destruct H as [_ H].
  destruct (SimpleCoverageCalc.count_lines 0 (drop 1 lines)) as [c|] eqn:E; [|done].
  pose proof (count_lines_bound _ _ _ Hb E) as Hc.
  assert (is_ok (SimpleCoverageCalc.coverage_percent c
                   (SimpleCoverageCalc.total_lines lines)) = true) as Hp.
  { unfold SimpleCoverageCalc.coverage_percent, SimpleCoverageCalc.total_lines in *.
    destruct (0 <? Z.of_nat (length lines) - 1) eqn:E0; [|done].
    apply percent_of_ok; [|lia]. rewrite length_drop in Hc. lia. }
  destruct (SimpleCoverageCalc.coverage_percent c _) as [pct|] eqn:Ep; [|done].
  destruct (samples_ok (take 5 (drop 1 lines)) 0 (first_bad_take 5 _ Hb))
    as (previews & Es & Hl).
  exists c, pct, previews. split; [done|]. split; [done|]. split; [done|]. split.
  { rewrite Hl. etrans; [apply List.filter_length_le|]. rewrite length_take. lia. }
  unfold SimpleCoverageCalc.simple_coverage_calc, preamble.
  rewrite !print_bind. cbn beta. rewrite E, lift_ok_bind, Ep, lift_ok_bind.
  cbn beta. rewrite !print_bind. cbn beta. rewrite Es. reflexivity.
Qed.

(** X4: how a run on an existing profile ends, for both scripts: with
    the [ValueError] of token 2 of the first data line that has three or
    more tokens and a token 2 that is no integer literal, and normally
    when there is no such line. No run ends in a [ZeroDivisionError] or
    an [OverflowError]. *)
Theorem run_outcome (s : script) (lines : list string) :
  outcome (run s (Some lines)) =
  match first_bad (drop 1 lines) with
  | Some tok => Raise (ValueError tok)
  | None => Ok tt
  end.
Proof.
  destruct (first_bad (drop 1 lines)) as [tok|] eqn:Hb.
  - pose proof (loops_stop initial 0 (drop 1 lines)) as H.
    rewrite Hb in H. destruct H as [H1 H2]. destruct s; unfold run.
    + unfold analyze_coverage. by rewrite H1.
    + unfold SimpleCoverageCalc.simple_coverage_calc. rewrite !print_bind. cbn beta.
      by rewrite H2.
  - destruct s; unfold run.
    + destruct (report_layout_aux lines Hb) as (st & pct & texts & _ & _ & _ & ->). done.
    + destruct (simple_layout_aux lines Hb) as (c & pct & pv & _ & _ & _ & _ & ->). done.
Qed.

(** *** Full coverage *)

Lemma count_lines_counted (data : list string) (c c' : Z) :
  SimpleCoverageCalc.count_lines c data = Ok c' →
  c' = c + count_of counted data.
Proof.
  revert c. induction data as [|line rest IH]; intros c; cbn [SimpleCoverageCalc.count_lines].
  - intros [= <-]. unfold count_of. simpl. lia.
  - destruct (SimpleCoverageCalc.count_line c line) as [c1|] eqn:E; [|done].
    rewrite bind_ok. intros ->%IH. rewrite count_of_cons.
    revert E. unfold counted.
    destruct (3 <=? length (tokens line))%nat eqn:H3.
    + apply Nat.leb_le in H3.
      destruct (int_literal (nth 2 (tokens line) "")) as [n|] eqn:En.
      * rewrite (SimpleFacts.count_line_count c line n) by done.
        intros [= <-]. simpl. destruct (0 <? n); lia.
      * by rewrite SimpleFacts.count_line_bad_count.
    + apply Nat.leb_gt in H3. apply tolerated_tokens in H3.
      rewrite SimpleFacts.count_line_tolerated by done. intros [= <-]. simpl. lia.
Qed.

Lemma all_covered (data : list string) :
  forallb covered_record data = true →
  ∀ st c, ∃ st',
    loop st data = Ok st' ∧
    total_statements st' = total_statements st + Z.of_nat (length data) ∧
    covered_statements st' = covered_statements st + Z.of_nat (length data) ∧
    SimpleCoverageCalc.count_lines c data = Ok (c + Z.of_nat (length data)).
Proof.
  induction data as [|line rest IH]; intros Hall st c.
  - exists st. simpl. repeat split; try lia. by rewrite Z.add_0_r.
  - cbn [forallb] in Hall. apply andb_prop in Hall as [Hl Hr].
    unfold covered_record, well_formed, counted in Hl.
    apply andb_prop in Hl as [[H3 Hc%negb_true_iff]%andb_prop [_ Hn]%andb_prop].
    apply Nat.leb_le in H3. apply Z.eqb_neq in Hc.
    destruct (int_literal (nth 2 (tokens line) "")) as [n|] eqn:En; [|done].
    cbn [loop SimpleCoverageCalc.count_lines].
    rewrite (AnalysisFacts.loop_body_record st line n) by done.
    rewrite (SimpleFacts.count_line_count c line n) by done.
    rewrite Hn, !bind_ok.
    destruct (IH Hr (run_stmts (count_stmts
                (replace module_prefix ""
                   (slice_to (nth 0 (tokens line) "") (rfind ":" (nth 0 (tokens line) ""))))
                n) st) (c + 1)) as (st' & E & Ht & Hcv & Es).
    exists st'. rewrite AnalysisFacts.run_count_stmts in Ht, Hcv.
    cbn [total_statements covered_statements] in Ht, Hcv. rewrite Hn in Hcv.
    split; [done|]. cbn [length]. rewrite Nat2Z.inj_succ.
    split; [lia|]. split; [lia|]. rewrite Es. f_equal. lia.
Qed.

(** X15: when there is at least one data line and every data line is a
    record with a positive count, both scripts compute the float 100.0,
    show 100.00% and give the pass message. *)
Theorem full_coverage_passes (s : script) (h : string) (data : list string) :
  data ≠ [] →
  forallb covered_record data = true →
  reported_percent s (h :: data) = Ok (float_of_int 100) ∧
  percent_line s (stdout (run s (Some (h :: data))))
    = Some (percent_label s +:+ "100.00%") ∧
  verdict_line s (stdout (run s (Some (h :: data)))) = Some pass_message.
Proof.
  intros Hne Hall.
  destruct (all_covered data Hall initial 0) as (st & E & Ht & Hc & Es).
  cbn [total_statements covered_statements initial] in Ht, Hc.
  assert (0 < Z.of_nat (length data)) as Hlen by (destruct data; [done|simpl; lia]).
  assert (first_bad (drop 1 (h :: data)) = None) as Hb.
  { pose proof (loops_stop initial 0 data) as H.
    rewrite skipn_cons, drop_0. destruct (first_bad data); [|done].
    destruct H as [H _]. by rewrite H in E. }
  destruct s.
  - destruct (report_layout_aux (h :: data) Hb) as (st' & pct & texts & E' & Ep & _ & Hrun).
    rewrite skipn_cons, drop_0 in E'. rewrite E in E'. injection E' as <-.
    assert (pct = float_of_int 100) as ->.
    { unfold overall_percent in Ep. rewrite Ht, Hc in Ep.
      assert ((0 <? 0 + Z.of_nat (length data)) = true) as Hpos by lia.
      rewrite Hpos, percent_of_all in Ep by lia. by injection Ep as <-. }
    split.
    { unfold reported_percent. rewrite skipn_cons, drop_0, E, bind_ok. exact Ep. }
    unfold run. rewrite Hrun. split; [reflexivity|].
    exact (last_after [_; _; _; _; _; _] texts _ _ _).
  - destruct (simple_layout_aux (h :: data) Hb) as (c & pct & pv & E' & Ep & _ & _ & Hrun).
    rewrite skipn_cons, drop_0 in E'. rewrite Es in E'. injection E' as <-.
    assert (SimpleCoverageCalc.total_lines (h :: data) = Z.of_nat (length data)) as Htl
      by (unfold SimpleCoverageCalc.total_lines; simpl length; lia).
    assert (pct = float_of_int 100) as ->.
    { unfold SimpleCoverageCalc.coverage_percent in Ep. rewrite Htl in Ep.
      assert ((0 <? Z.of_nat (length data)) = true) as Hpos by lia.
      rewrite Hpos, Z.add_0_l, percent_of_all in Ep by lia. by injection Ep as <-. }
    split.
    { unfold reported_percent. rewrite skipn_cons, drop_0, Es, bind_ok. exact Ep. }
    unfold run. rewrite Hrun. split; reflexivity.
Qed.

(** *** The further properties *)

Lemma record_anatomy_witness :
  (3 ≤ length (tokens prefixed_line))%nat ∧
  int_literal (nth 2 (tokens prefixed_line) "") = Some 1 ∧
  ∃ identifier range,
    nth 0 (tokens prefixed_line) "" = identifier +:+ String ":" range ∧
    occurs ":" range = false ∧
    "pkg/a.go" = replace module_prefix "" identifier.
Proof.
  apply (proj1 (record_anatomy prefixed_line "pkg/a.go" 1)). reflexivity.
Defined.

(** X3: the two loops stop on the same lines. With [tok] the token 2 of
    the first data line that has three or more tokens and a token 2 that
    is no integer literal, both raise [ValueError] for [tok], from any
    starting state; when there is no such line, both run to their end. *)
Theorem both_loops_stop_at_first_bad_count (st : state) (c : Z) (data : list string) :
  match first_bad data with
  | Some tok =>
      loop st data = Raise (ValueError tok) ∧
      SimpleCoverageCalc.count_lines c data = Raise (ValueError tok)
  | None =>
      is_ok (loop st data) = true ∧
      is_ok (SimpleCoverageCalc.count_lines c data) = true
  end.
Proof. apply loops_stop. Qed.

(** X5: what the loop of the per-file analysis computes. With the records
    of the data lines (those with three or more tokens and a colon in
    token 0), the global total is their number, the global covered count
    is the number of those with a positive count, and a file name has an
    entry exactly when some record bears it; the entry then holds the
    number of those records and the number of them with a positive
    count. *)
Theorem loop_counts_records (data : list string) (st : state) :
  loop initial data = Ok st →
  total_statements st = Z.of_nat (length (records data)) ∧
  covered_statements st = count_of is_covered (records data) ∧
  ∀ f, file_stats st !! f =
       if count_of (named f) (records data) =? 0 then None
       else Some (Stats (count_of (named f) (records data))
                        (count_of (λ r, named f r && is_covered r) (records data))).
Proof.
  intros (Ht & Hc & Hf)%loop_tally. cbn [initial total_statements covered_statements] in Ht, Hc.
  split; [lia|]. split; [lia|]. intros f. rewrite Hf. unfold tally.
  change (file_stats initial) with (∅ : gmap string stats). rewrite lookup_empty.
  destruct (count_of (named f) (records data) =? 0); [done|]. simpl.
  by rewrite !Z.add_0_l.
Qed.

Lemma loop_counts_records_witness :
  total_statements one_record_state = Z.of_nat (length (records [covered_line])) ∧
  covered_statements one_record_state = count_of is_covered (records [covered_line]) ∧
  ∀ f, file_stats one_record_state !! f =
       if count_of (named f) (records [covered_line]) =? 0 then None
       else Some (Stats (count_of (named f) (records [covered_line]))
                        (count_of (λ r, named f r && is_covered r)
                           (records [covered_line]))).
Proof.
  apply (loop_counts_records [covered_line] one_record_state).
  vm_compute. reflexivity.
Defined.

(** X6: what the loop of the simple script computes: the number of data
    lines with three or more tokens whose token 2 is a positive integer
    literal, whether token 0 has a colon or not. *)
Theorem count_lines_counts (data : list string) (c : Z) :
  SimpleCoverageCalc.count_lines 0 data = Ok c → c = count_of counted data.
Proof. intros H%count_lines_counted. lia. Qed.

Lemma count_lines_counts_witness : 1 = count_of counted [covered_line].
Proof. apply (count_lines_counts [covered_line] 1). reflexivity. Defined.





Lemma concatenation_adds_statistics_witness :
  loop initial ([covered_line] ++ [covered_line])
    = Ok (merge one_record_state one_record_state).
Proof.
  apply (concatenation_adds_statistics [covered_line] [covered_line]);
    vm_compute; reflexivity.
Defined.

(** X10: the names of the per-file section are the keys of [file_stats],
    each once, in ascending order of their bytes. *)
Theorem per_file_names_sorted (fs : gmap string stats) :
  Sorted String.le (sorted_keys fs) ∧
  NoDup (sorted_keys fs) ∧
  ∀ name, name ∈ sorted_keys fs ↔ is_Some (fs !! name).
Proof. apply sorted_keys_spec. Qed.

(** X11: when the loop has ended, every entry of [file_stats] has a total
    of at least 1 and a covered count between 0 and its total; so the
    test [stats['total'] > 0] of line 63 never leaves a file out, and the
    division of line 64 never has a zero divisor. *)
Theorem entries_are_counted (data : list string) (st : state) (name : string) (s : stats) :
  loop initial data = Ok st →
  file_stats st !! name = Some s →
  1 ≤ total s ∧ 0 ≤ covered s ≤ total s.
Proof.
  intros [Hfs _]%loop_entries Hs. destruct (Hfs _ _ Hs) as [H1 H2]. lia.
Qed.

Lemma entries_are_counted_witness :
  1 ≤ total (Stats 1 1) ∧ 0 ≤ covered (Stats 1 1) ≤ total (Stats 1 1).
Proof.
  apply (entries_are_counted [covered_line] one_record_state "a.go" (Stats 1 1)).
  - vm_compute. reflexivity.
  - vm_compute. reflexivity.
Defined.



(** X13: the output of a run of the simple script without a bad count:
    the three opening texts, the covered count, the percentage, the
    verdict, the title of the preview, and then one preview text for each
    of the first five data lines that has three or more tokens, so five
    at most; and the run ends normally: the conversions of the preview
    cannot fail once the counting loop has passed. *)
Theorem simple_layout (lines : list string) :
  first_bad (drop 1 lines) = None →
  ∃ c pct previews,
    SimpleCoverageCalc.count_lines 0 (drop 1 lines) = Ok c ∧
    SimpleCoverageCalc.coverage_percent c (SimpleCoverageCalc.total_lines lines) = Ok pct ∧
    length previews =
      length (List.filter (λ l, (3 <=? length (tokens l))%nat) (take 5 (drop 1 lines))) ∧
    (length previews ≤ 5)%nat ∧
    SimpleCoverageCalc.simple_coverage_calc (Some lines) =
      (preamble lines ++
       ["Covered lines: " +:+ format_d c;
        "Coverage percentage: " +:+ format_f2 pct +:+ "%";
        verdict pct;
        newline +:+ "=== Sample coverage lines ==="] ++
       previews, Ok tt).
Proof. apply simple_layout_aux. Qed.

Lemma simple_layout_witness :
  ∃ c pct previews,
    SimpleCoverageCalc.count_lines 0 (drop 1 profile_one_record) = Ok c ∧
    SimpleCoverageCalc.coverage_percent c
      (SimpleCoverageCalc.total_lines profile_one_record) = Ok pct ∧
    length previews =
      length (List.filter (λ l, (3 <=? length (tokens l))%nat)
                (take 5 (drop 1 profile_one_record))) ∧
    (length previews ≤ 5)%nat ∧
    SimpleCoverageCalc.simple_coverage_calc (Some profile_one_record) =
      (preamble profile_one_record ++
       ["Covered lines: " +:+ format_d c;
        "Coverage percentage: " +:+ format_f2 pct +:+ "%";
        verdict pct;
        newline +:+ "=== Sample coverage lines ==="] ++
       previews, Ok tt).
Proof. apply (simple_layout profile_one_record). reflexivity. Defined.

(** X14: [covered / total * 100] raises nothing when the divisor is
    positive and the dividend lies between 0 and the divisor: the quotient
    of the exact integers is at most 1, so its rounding cannot overflow,
    whatever the size of the two integers. *)
Theorem percent_never_raises (covered total : Z) :
  0 ≤ covered ≤ total → 0 < total →
  ∃ pct, percent_of covered total = Ok pct.
Proof.
  intros Hc Ht. pose proof (percent_of_ok covered total Hc Ht) as H.
  destruct (percent_of covered total) as [pct|]; [by exists pct | done].
Qed.

Lemma percent_never_raises_witness : ∃ pct, percent_of 2 3 = Ok pct.
Proof. apply (percent_never_raises 2 3); lia. Defined.

Lemma full_coverage_passes_witness :
  reported_percent PerFile (header :: [covered_line]) = Ok (float_of_int 100) ∧
  percent_line PerFile (stdout (run PerFile (Some (header :: [covered_line]))))
    = Some (percent_label PerFile +:+ "100.00%") ∧
  verdict_line PerFile (stdout (run PerFile (Some (header :: [covered_line]))))
    = Some pass_message.
Proof.
  apply (full_coverage_passes PerFile header [covered_line]).
  - discriminate.
  - reflexivity.
Defined.

(** *** Order of the lines in the simple script, and the name column *)

Lemma count_line_cases (c : Z) (line : string) :
  SimpleCoverageCalc.count_line c line =
  if bad_count line then Raise (ValueError (nth 2 (tokens line) ""))
  else Ok (c + (if counted line then 1 else 0)).
Proof.
  unfold bad_count, counted.
  destruct (3 <=? length (tokens line))%nat eqn:H3.
  - apply Nat.leb_le in H3.
    destruct (int_literal (nth 2 (tokens line) "")) as [n|] eqn:En; simpl.
    + rewrite (SimpleFacts.count_line_count c line n) by done.
      destruct (0 <? n); f_equal; lia.
    + by apply SimpleFacts.count_line_bad_count.
  - apply Nat.leb_gt in H3. apply tolerated_tokens in H3.
    rewrite SimpleFacts.count_line_tolerated by done. simpl. f_equal. lia.
Qed.

Lemma count_lines_swap (c : Z) (x y : string) (rest : list string) :
  to_option (SimpleCoverageCalc.count_lines c (x :: y :: rest)) =
  to_option (SimpleCoverageCalc.count_lines c (y :: x :: rest)).
Proof.
  cbn [SimpleCoverageCalc.count_lines].
  destruct (bad_count x) eqn:Hx, (bad_count y) eqn:Hy;
    repeat (rewrite ?bind_ok, ?bind_raise, ?count_line_cases, ?Hx, ?Hy);
    try reflexivity.
  do 2 f_equal. lia.
Qed.

Lemma count_lines_permutation (data data' : list string) :
  data ≡ₚ data' →
  ∀ c, to_option (SimpleCoverageCalc.count_lines c data)
       = to_option (SimpleCoverageCalc.count_lines c data').
Proof.
  induction 1 as [|x l l' _ IH|x y l|l1 l2 l3 _ IH1 _ IH2]; intros c.
  - reflexivity.
  - cbn [SimpleCoverageCalc.count_lines].
    destruct (SimpleCoverageCalc.count_line c x) as [c'|e]; [apply IH | reflexivity].
  - apply count_lines_swap.
  - by rewrite IH1.
Qed.

(** X16: in the simple script too, the number of data lines and the
    covered count do not depend on the order of the data lines: permuting
    them gives the same total, and either an exception in both orders or
    the same covered count. Only the preview depends on the order. *)
Theorem simple_totals_order_irrelevant (h : string) (data data' : list string) :
  data ≡ₚ data' →
  SimpleCoverageCalc.total_lines (h :: data) = SimpleCoverageCalc.total_lines (h :: data') ∧
  to_option (SimpleCoverageCalc.count_lines 0 (drop 1 (h :: data)))
    = to_option (SimpleCoverageCalc.count_lines 0 (drop 1 (h :: data'))).
Proof.
  intros Hp. split.
  - unfold SimpleCoverageCalc.total_lines. cbn [length]. by rewrite Hp.
  - rewrite !skipn_cons, !drop_0. by apply count_lines_permutation.
Qed.






Lemma simple_totals_order_irrelevant_witness :
  SimpleCoverageCalc.total_lines (header :: [covered_line; negative_line])
    = SimpleCoverageCalc.total_lines (header :: [negative_line; covered_line]) ∧
  to_option (SimpleCoverageCalc.count_lines 0
               (drop 1 (header :: [covered_line; negative_line])))
    = to_option (SimpleCoverageCalc.count_lines 0
                   (drop 1 (header :: [negative_line; covered_line]))).
Proof.
  apply (simple_totals_order_irrelevant header [covered_line; negative_line]
           [negative_line; covered_line]).
  apply perm_swap.
Defined.
